(** * Steam Deck restock checker: a shallow embedding and its properties

    The repository is one script in several generations.  The newest one
    (yargs command line, four devices, "other devices" and heartbeat
    notifications) is embedded in [Module Restock]; the generation before it,
    which matches on per-device search terms, in [Module SearchTerms]; the
    notifier of the single-device generation, which derives the sound from
    the priority, in [Module SingleDevice].  [Module Policy] states the two
    matching policies in the words of the specification.  The runs of the two
    earlier generations, whose error notification is not awaited, are in
    [Module SingleDeviceRun] and [Module SearchTermsRun].

    JavaScript strings are represented by Rocq strings (the bytes of their
    UTF-8 encoding).  [String.prototype.includes] is substring containment;
    every needle the script searches for is plain ASCII. *)

From Stdlib Require Import String Ascii List Bool ZArith Lia Permutation.
Import ListNotations.

Local Open Scope list_scope.
Local Open Scope string_scope.

(** ** JavaScript strings *)

Module Js.

(** [text.includes(search)]: [search] occurs in [text] at some position. *)
Fixpoint includes (text search : string) : bool :=
  String.prefix search text
  || match text with
     | EmptyString => false
     | String _ rest => includes rest search
     end.

(** [parts.join(sep)] on an array of strings. *)
Fixpoint join (sep : string) (parts : list string) : string :=
  match parts with
  | [] => ""
  | [p] => p
  | p :: rest => p ++ sep ++ join sep rest
  end.

(** [c.toUpperCase()] on one code unit: only ASCII letters are mapped, the
    bytes of other characters are kept. *)
Definition upper_ascii (c : ascii) : ascii :=
  let n := nat_of_ascii c in
  if (97 <=? n)%nat && (n <=? 122)%nat then ascii_of_nat (n - 32) else c.

Fixpoint toUpperCase (s : string) : string :=
  match s with
  | EmptyString => EmptyString
  | String c rest => String (upper_ascii c) (toUpperCase rest)
  end.

(** [s.padEnd(n)]: spaces are appended until the length is [n]. *)
Fixpoint spaces (n : nat) : string :=
  match n with
  | O => ""
  | S k => String " " (spaces k)
  end.

Definition padEnd (s : string) (n : nat) : string :=
  s ++ spaces (n - String.length s).

(** The substring relation that [includes] decides. *)
Definition Substring (search text : string) : Prop :=
  exists before after, text = before ++ search ++ after.

End Js.

(** ** The newest generation: display-name matching *)

Module Restock.

Import Js.

Record Device := mkDevice {
  name : string;
  priority : Z;
  sound : string
}.

(** The [DEVICES] literal; [Object.entries] and [Object.keys] enumerate it in
    this order (none of the keys is an array index). *)
Definition DEVICES : list (string * Device) :=
  [ ("oled-512", mkDevice "Steam Deck OLED 512GB" 1 "magic");
    ("oled-1tb", mkDevice "Steam Deck OLED 1TB" 1 "magic");
    ("lcd-256", mkDevice "Steam Deck LCD 256GB" 0 "pushover");
    ("lcd-512", mkDevice "Steam Deck LCD 512GB" 0 "pushover") ].

(** What [DEVICES[key]] can evaluate to.  [DEVICES] is an object literal, so
    a key that is not its own is looked up on [Object.prototype]. *)
Inductive Member :=
| OwnDevice (d : Device)
| ProtoFunction (fname : string)
| ProtoObject.

(** The function-valued properties of [Object.prototype], each with the
    [name] of the function. *)
Definition OBJECT_PROTOTYPE : list (string * string) :=
  [ ("constructor", "Object");
    ("__defineGetter__", "__defineGetter__");
    ("__defineSetter__", "__defineSetter__");
    ("hasOwnProperty", "hasOwnProperty");
    ("__lookupGetter__", "__lookupGetter__");
    ("__lookupSetter__", "__lookupSetter__");
    ("isPrototypeOf", "isPrototypeOf");
    ("propertyIsEnumerable", "propertyIsEnumerable");
    ("toString", "toString");
    ("valueOf", "valueOf");
    ("toLocaleString", "toLocaleString") ].

Fixpoint assoc {A} (key : string) (entries : list (string * A)) : option A :=
  match entries with
  | [] => None
  | (k, v) :: rest => if String.eqb key k then Some v else assoc key rest
  end.

(** [DEVICES[key]]; [None] is [undefined]. *)
Definition DEVICES_get (key : string) : option Member :=
  match assoc key DEVICES with
  | Some d => Some (OwnDevice d)
  | None =>
      match assoc key OBJECT_PROTOTYPE with
      | Some fname => Some (ProtoFunction fname)
      | None => if String.eqb key "__proto__" then Some ProtoObject else None
      end
  end.

(** Property reads on such a value; [None] is [undefined]. *)
Definition get_name (m : Member) : option string :=
  match m with
  | OwnDevice d => Some (name d)
  | ProtoFunction fname => Some fname
  | ProtoObject => None
  end.

Definition get_priority (m : Member) : option Z :=
  match m with
  | OwnDevice d => Some (priority d)
  | _ => None
  end.

Definition get_sound (m : Member) : option string :=
  match m with
  | OwnDevice d => Some (sound d)
  | _ => None
  end.

(** String conversion of a possibly undefined string, as in a template
    literal or in the argument of [includes]. *)
Definition str (v : option string) : string :=
  match v with
  | Some s => s
  | None => "undefined"
  end.

Definition checkDeviceAvailability (cartButtonTexts : list string) (device : Member) : bool :=
  existsb
    (fun buttonText =>
       includes buttonText (str (get_name device))
       && negb (includes buttonText "Out of stock"))
    cartButtonTexts.

(** [forEach] over [Object.entries(DEVICES)], pushing the matching codes. *)
Fixpoint collectAvailable (cartButtonTexts : list string)
    (entries : list (string * Device)) (availableDevices : list string) : list string :=
  match entries with
  | [] => availableDevices
  | (deviceCode, device) :: rest =>
      collectAvailable cartButtonTexts rest
        (if checkDeviceAvailability cartButtonTexts (OwnDevice device)
         then (availableDevices ++ [deviceCode])%list
         else availableDevices)
  end.

Definition checkAllDevicesAvailability (cartButtonTexts : list string) : list string :=
  collectAvailable cartButtonTexts DEVICES [].

(** *** The outside world

    Errors are the [Error] objects the script sees: it reads [message] and
    [stack] only. *)
Record JsError := mkError {
  err_message : string;
  err_stack : string
}.

Inductive Outcome (A : Type) :=
| Ok (a : A)
| Throw (e : JsError).
Arguments Ok {A} a.
Arguments Throw {A} e.

(** The object handed to [pushover.send], and what its callback receives. *)
Record PushoverMessage := mkMessage {
  msg_message : string;
  msg_title : string;
  msg_priority : Z;
  msg_sound : string
}.

Record PushoverResult := mkResult {
  status : Z;
  request : string
}.

(** [new Push({ user, token })]. *)
Record Push := mkPush {
  user : string;
  token : string
}.

(** The awaited puppeteer calls, in the order the script makes them.
    [Evaluate i] is [cartButton.evaluate] on the [i]-th handle returned by
    [page.$$]. *)
Inductive BrowserCall :=
| Launch
| NewPage
| SetUserAgent (ua : string)
| Goto (url : string)
| Focus (selector : string)
| QueryAll (selector : string)
| Evaluate (index : nat)
| Close.

Inductive Stream := Stdout | Stderr.

(** One argument of [console.log] or [console.error]. *)
Inductive LogArg :=
| Txt (s : string)
| Num (n : nat)
| CartButtonTexts (texts : list string)
| ErrObj (e : JsError).

(** What a run cannot control: which puppeteer promises reject, the text of
    the product card around each [div.CartBtn], what the Pushover service
    answers to the [n]-th message it is handed, the clock, the stack the
    engine attaches to a new error, and [process.env]. *)
Record Env := mkEnv {
  rejects : BrowserCall -> option JsError;
  cart_texts : list string;
  pushover_reply : nat -> PushoverMessage -> JsError + PushoverResult;
  now_iso : string;
  new_stack : string -> string;
  PUSHOVER_USER : option string;
  PUSHOVER_TOKEN : option string
}.

Inductive Browser := TheBrowser.

(** What a run leaves behind: console lines, puppeteer calls, and messages
    handed to the Pushover client.  [notify_calls] lists the invocations of
    [sendNotification] with their arguments after defaulting, whether or not
    a client exists; [browser] is the [let browser] binding of
    [checkSteamDeckStock]. *)
Record World := mkWorld {
  console : list (Stream * list LogArg);
  browser_calls : list BrowserCall;
  handed_over : list PushoverMessage;
  notify_calls : list PushoverMessage;
  browser : option Browser
}.

Definition start : World := mkWorld [] [] [] [] None.

(** *** Awaited code: environment, state and exceptions *)

Definition M (A : Type) : Type := Env -> World -> Outcome A * World.

Definition ret {A} (a : A) : M A := fun _ w => (Ok a, w).

Definition throw {A} (e : JsError) : M A := fun _ w => (Throw e, w).

Definition bind {A B} (m : M A) (k : A -> M B) : M B :=
  fun env w =>
    match m env w with
    | (Ok a, w') => k a env w'
    | (Throw e, w') => (Throw e, w')
    end.

Notation "x <- m ;; k" := (bind m (fun x => k))
  (at level 61, m at next level, right associativity).
Notation "m ;; k" := (bind m (fun _ => k))
  (at level 61, right associativity).

(** [try { body } catch (error) { handler }]. *)
Definition try_catch {A} (body : M A) (handler : JsError -> M A) : M A :=
  fun env w =>
    match body env w with
    | (Ok a, w') => (Ok a, w')
    | (Throw e, w') => handler e env w'
    end.

(** [try { body } finally { cleanup }]: an exception of the cleanup replaces
    the outcome of the body. *)
Definition try_finally {A} (body : M A) (cleanup : M unit) : M A :=
  fun env w =>
    match body env w with
    | (r, w') =>
        match cleanup env w' with
        | (Ok _, w'') => (r, w'')
        | (Throw e, w'') => (Throw e, w'')
        end
    end.

Definition ask {A} (f : Env -> A) : M A := fun env w => (Ok (f env), w).

Definition console_log (args : list LogArg) : M unit :=
  fun _ w =>
    (Ok tt, mkWorld (console w ++ [(Stdout, args)]) (browser_calls w)
              (handed_over w) (notify_calls w) (browser w)).

Definition console_error (args : list LogArg) : M unit :=
  fun _ w =>
    (Ok tt, mkWorld (console w ++ [(Stderr, args)]) (browser_calls w)
              (handed_over w) (notify_calls w) (browser w)).

(** An awaited puppeteer call: it is made, then resolves or rejects. *)
Definition puppeteer (call : BrowserCall) : M unit :=
  fun env w =>
    let w' := mkWorld (console w) (browser_calls w ++ [call])
                (handed_over w) (notify_calls w) (browser w) in
    match rejects env call with
    | None => (Ok tt, w')
    | Some e => (Throw e, w')
    end.

Definition set_browser (b : option Browser) : M unit :=
  fun _ w =>
    (Ok tt, mkWorld (console w) (browser_calls w) (handed_over w) (notify_calls w) b).

Definition get_browser : M (option Browser) := fun _ w => (Ok (browser w), w).

(** [await promisify(pushover.send.bind(pushover))(notificationMessage)]. *)
Definition pushoverSend (client : Push) (notificationMessage : PushoverMessage)
    : M PushoverResult :=
  fun env w =>
    let w' := mkWorld (console w) (browser_calls w)
                (handed_over w ++ [notificationMessage]) (notify_calls w) (browser w) in
    match pushover_reply env (List.length (handed_over w)) notificationMessage with
    | inr result => (Ok result, w')
    | inl error => (Throw error, w')
    end.

Definition record_call (call : PushoverMessage) : M unit :=
  fun _ w =>
    (Ok tt, mkWorld (console w) (browser_calls w) (handed_over w)
              (notify_calls w ++ [call]) (browser w)).

(** [new Error(text)] and the engine's [TypeError]. *)
Definition new_Error (text : string) : M JsError :=
  fun env w => (Ok (mkError text (new_stack env text)), w).

(** *** The script *)

(** A missing or undefined argument takes the parameter's default. *)
Definition default {A} (d : A) (arg : option A) : A :=
  match arg with
  | Some a => a
  | None => d
  end.

(** Truthiness of a string that may be undefined. *)
Definition truthy (v : option string) : bool :=
  match v with
  | Some s => negb (String.eqb s "")
  | None => false
  end.

Definition initializePushover (userKey apiToken : option string) : M (option Push) :=
  if truthy userKey && truthy apiToken then
    console_log [Txt "✅ Pushover notifications enabled"] ;;
    ret (Some (mkPush (str userKey) (str apiToken)))
  else
    console_log [Txt "⚠️ Pushover credentials not found - notifications disabled"] ;;
    console_log [Txt "   Provide via --pushover-user/--pushover-token or PUSHOVER_USER/PUSHOVER_TOKEN env vars"] ;;
    ret None.

Definition sendNotification (pushover : option Push) (message : string)
    (title : option string) (priority : option Z) (sound : option string)
    : M (option PushoverResult) :=
  let title := default "Steam Deck Restock Alert" title in
  let priority := default 0%Z priority in
  let sound := default "pushover" sound in
  record_call (mkMessage message title priority sound) ;;
  match pushover with
  | None =>
      console_log [Txt ("📱 Would send notification: " ++ title ++ " - " ++ message)] ;;
      ret None
  | Some client =>
      let notificationMessage := mkMessage message title priority sound in
      try_catch
        (result <- pushoverSend client notificationMessage ;;
         console_log [Txt "✅ Pushover notification sent successfully"] ;;
         ret (Some result))
        (fun error =>
           console_error [Txt "❌ Failed to send Pushover notification:"; ErrObj error] ;;
           throw error)
  end.

Definition nl : string := String (ascii_of_nat 10) "".

Definition STORE_URL : string :=
  "https://store.steampowered.com/sale/steamdeckrefurbished/".

Definition USER_AGENT : string :=
  "Mozilla/5.0 (Windows NT 10.0; Win64; x64) AppleWebKit/537.36 (KHTML, like Gecko) Chrome/91.0.4472.124 Safari/537.36".

(** The [for ... of cartButtons] loop: one [evaluate] per handle, each text
    pushed when its promise resolves. *)
Fixpoint evaluateAll (index : nat) (containers : list string)
    (cartButtonTexts : list string) : M (list string) :=
  match containers with
  | [] => ret cartButtonTexts
  | text :: rest =>
      puppeteer (Evaluate index) ;;
      evaluateAll (S index) rest (cartButtonTexts ++ [text])%list
  end.

(** The browser part of the [try] block, from [puppeteer.launch] to the
    filled [cartButtonTexts]. *)
Definition scrapeCartButtonTexts : M (list string) :=
  puppeteer Launch ;;
  set_browser (Some TheBrowser) ;;
  puppeteer NewPage ;;
  puppeteer (SetUserAgent USER_AGENT) ;;
  console_log [Txt "Navigating to Steam Deck refurbished page..."] ;;
  puppeteer (Goto STORE_URL) ;;
  console_log [Txt "Checking cart buttons..."] ;;
  puppeteer (Focus "div.CartBtn") ;;
  puppeteer (QueryAll "div.CartBtn") ;;
  containers <- ask cart_texts ;;
  evaluateAll 0 containers [].

(** Whether the browser part yields the texts or throws is decided by the
    environment alone. *)
Definition scrape_outcome (env : Env) : Outcome (list string) :=
  fst (scrapeCartButtonTexts env start).

(** [availableDevices.map((code) => DEVICES[code].name)]. *)
Fixpoint deviceNames (codes : list string) : M (list (option string)) :=
  match codes with
  | [] => ret []
  | code :: rest =>
      match DEVICES_get code with
      | None =>
          e <- new_Error "Cannot read properties of undefined (reading 'name')" ;;
          throw e
      | Some member =>
          names <- deviceNames rest ;;
          ret (get_name member :: names)
      end
  end.

(** An undefined element is joined as the empty string. *)
Definition joined (v : option string) : string :=
  match v with
  | Some s => s
  | None => ""
  end.

Definition bool_text (b : bool) : string := if b then "true" else "false".

Definition OTHER_TITLE : string := "📦 Other Steam Decks Available".
Definition HEARTBEAT_TITLE : string := "✅ Steam Deck Check Complete".
Definition ERROR_TITLE : string := "🔥 Steam Deck Checker Error".
Definition CRITICAL_TITLE : string := "🚨 CRITICAL: Steam Deck Checker Failed".

(** The [catch (error)] block of [checkSteamDeckStock]. *)
Definition reportError (pushover : option Push) (device : Member) (error : JsError)
    : M unit :=
  console_error [Txt "❌ Error occurred:"; Txt (err_message error)] ;;
  try_catch
    (time <- ask now_iso ;;
     sendNotification pushover
       ("🚨 Steam Deck checker encountered an error:" ++ nl ++ nl
        ++ err_message error ++ nl ++ nl
        ++ "Device: " ++ str (get_name device) ++ nl ++ "Time: " ++ time)
       (Some ERROR_TITLE) (Some 1%Z) (Some "siren") ;;
     console_log [Txt "✅ Error notification sent successfully"])
    (fun notificationError =>
       console_error [Txt "❌ Failed to send error notification:";
                      Txt (err_message notificationError)]) ;;
  throw error.

(** The [if (isDeviceAvailable) ... else ...] at the end of the [try] block. *)
Definition announce (pushover : option Push) (notifySuccess : bool) (device : Member)
    (isDeviceAvailable : bool) (availableDevices : list string) : M unit :=
  if isDeviceAvailable then
    console_log [Txt ("🎉 " ++ str (get_name device) ++ " is in stock!")] ;;
    upper <- match get_name device with
             | Some n => ret (toUpperCase n)
             | None =>
                 e <- new_Error "Cannot read properties of undefined (reading 'toUpperCase')" ;;
                 throw e
             end ;;
    sendNotification pushover
      ("🎉 " ++ str (get_name device) ++ " is now available for purchase!" ++ nl ++ nl
       ++ "Check: " ++ STORE_URL)
      (Some ("🚨 " ++ upper ++ " IN STOCK! 🚨"))
      (get_priority device) (get_sound device) ;;
    ret tt
  else
    console_log [Txt ("❌ No " ++ str (get_name device) ++ " in stock.")] ;;
    if (0 <? List.length availableDevices)%nat then
      otherDeviceNames <- deviceNames availableDevices ;;
      console_log [Txt ("ℹ️ Other Steam Deck models available: "
                        ++ join ", " (map joined otherDeviceNames))] ;;
      sendNotification pushover
        ("ℹ️ Your monitored device (" ++ str (get_name device)
         ++ ") is not available, but other models are in stock:" ++ nl ++ nl
         ++ join nl (map (fun name => "• " ++ str name) otherDeviceNames)
         ++ nl ++ nl ++ "Check: " ++ STORE_URL)
        (Some OTHER_TITLE) (Some 0%Z) (Some "pushover") ;;
      ret tt
    else if notifySuccess then
      time <- ask now_iso ;;
      sendNotification pushover
        ("✅ Stock check completed successfully for " ++ str (get_name device) ++ "."
         ++ nl ++ nl ++ "No Steam Deck models available at this time."
         ++ nl ++ nl ++ "Checked at: " ++ time)
        (Some HEARTBEAT_TITLE) (Some 0%Z) (Some "pushover") ;;
      ret tt
    else ret tt.

(** The [try] block of [checkSteamDeckStock]. *)
Definition stockCheck (pushover : option Push) (notifySuccess : bool) (device : Member)
    : M unit :=
  console_log [Txt "Starting Steam Deck stock check..."] ;;
  cartButtonTexts <- scrapeCartButtonTexts ;;
  console_log [Txt "Found cart buttons:"; Num (List.length cartButtonTexts)] ;;
  let isDeviceAvailable := checkDeviceAvailability cartButtonTexts device in
  let availableDevices := checkAllDevicesAvailability cartButtonTexts in
  console_log [CartButtonTexts cartButtonTexts] ;;
  console_log [Txt (str (get_name device) ++ " Available: " ++ bool_text isDeviceAvailable)] ;;
  console_log [Txt ("All available devices: "
                    ++ (if String.eqb (join ", " availableDevices) "" then "none"
                        else join ", " availableDevices))] ;;
  announce pushover notifySuccess device isDeviceAvailable availableDevices.

Definition checkSteamDeckStock (deviceCode : string) (pushover : option Push)
    (notifySuccess : bool) : M unit :=
  set_browser None ;;
  match DEVICES_get deviceCode with
  | None =>
      e <- new_Error ("Unknown device code: " ++ deviceCode ++ ". Available: "
                      ++ join ", " (map fst DEVICES)) ;;
      throw e
  | Some device =>
      console_log [Txt ("🔍 Monitoring " ++ str (get_name device) ++ "...")] ;;
      try_finally
        (try_catch
           (stockCheck pushover notifySuccess device)
           (reportError pushover device))
        (b <- get_browser ;;
         match b with
         | Some _ => puppeteer Close
         | None => ret tt
         end)
  end.

(** What [parseSync] returns. *)
Record Argv := mkArgv {
  device : string;
  pushoverUser : option string;
  pushoverToken : option string;
  notifySuccess : bool;
  listDevices : bool
}.

(** [a || b] on strings that may be undefined. *)
Definition or_else (a b : option string) : option string :=
  if truthy a then a else b.

Fixpoint printDevices (entries : list (string * Device)) : M unit :=
  match entries with
  | [] => ret tt
  | (code, device) :: rest =>
      console_log [Txt ("  " ++ padEnd code 10 ++ " - " ++ name device)] ;;
      printDevices rest
  end.

(** The [.catch] handler at the end of the script, up to [process.exit(1)]. *)
Definition reportCritical (pushover : option Push) (error : JsError) : M unit :=
  console_error [Txt "💥 Stock check failed:"; Txt (err_message error)] ;;
  match pushover with
  | Some _ =>
      try_catch
        (time <- ask now_iso ;;
         sendNotification pushover
           ("💥 Critical failure in Steam Deck checker:" ++ nl ++ nl
            ++ err_message error ++ nl ++ nl ++ "Stack trace:" ++ nl ++ err_stack error
            ++ nl ++ nl ++ "Time: " ++ time)
           (Some CRITICAL_TITLE) (Some 2%Z) (Some "siren") ;;
         console_log [Txt "✅ Critical error notification sent"])
        (fun notificationError =>
           console_error [Txt "❌ Failed to send critical error notification:";
                          Txt (err_message notificationError)])
  | None => ret tt
  end.

(** The script body when run directly; the result is the argument of
    [process.exit]. *)
Definition main (argv : Argv) (env : Env) (w : World) : Z * World :=
  if listDevices argv then
    let (_, w') :=
      (console_log [Txt "📱 Available Steam Deck devices:"] ;; printDevices DEVICES) env w in
    (0%Z, w')
  else
    let userKey := or_else (pushoverUser argv) (PUSHOVER_USER env) in
    let apiToken := or_else (pushoverToken argv) (PUSHOVER_TOKEN env) in
    match initializePushover userKey apiToken env w with
    | (Throw _, w1) => (1%Z, w1)
    | (Ok pushover, w1) =>
        match checkSteamDeckStock (device argv) pushover (notifySuccess argv) env w1 with
        | (Ok _, w2) =>
            let (_, w3) := console_log [Txt "✅ Stock check completed successfully"] env w2 in
            (0%Z, w3)
        | (Throw error, w2) =>
            let (_, w3) := reportCritical pushover error env w2 in
            (1%Z, w3)
        end
    end.

End Restock.

(** ** The generation before: search-term matching *)

Module SearchTerms.

Import Js.

Record Device := mkDevice {
  name : string;
  searchTerms : list string;
  priority : Z;
  sound : string
}.

Definition DEVICES : list (string * Device) :=
  [ ("oled-512", mkDevice "Steam Deck OLED 512GB" ["Steam Deck 512 GB OLED"; "Add to cart"] 1 "magic");
    ("oled-1tb", mkDevice "Steam Deck OLED 1TB" ["Steam Deck 1 TB OLED"; "Add to cart"] 1 "magic");
    ("lcd-256", mkDevice "Steam Deck LCD 256GB" ["Steam Deck 256 GB"; "Add to cart"] 0 "pushover");
    ("lcd-512", mkDevice "Steam Deck LCD 512GB" ["Steam Deck 512 GB"; "Add to cart"] 0 "pushover") ].

Definition checkDeviceAvailability (cartButtonTexts : list string) (device : Device) : bool :=
  existsb
    (fun buttonText => forallb (fun term => includes buttonText term) (searchTerms device))
    cartButtonTexts.

End SearchTerms.

(** ** The single-device notifier: the sound follows the priority *)

Module SingleDevice.

Import Restock.

Definition sendNotification (pushover : option Push) (message : string)
    (title : option string) (priority : option Z) : M (option PushoverResult) :=
  let title := default "Steam Deck Restock Alert" title in
  let priority := default 0%Z priority in
  match pushover with
  | None =>
      console_log [Txt ("📱 Would send notification: " ++ title ++ " - " ++ message)] ;;
      ret None
  | Some client =>
      let notificationMessage :=
        mkMessage message title priority (if (0 <? priority)%Z then "magic" else "pushover") in
      try_catch
        (result <- pushoverSend client notificationMessage ;;
         console_log [Txt "✅ Pushover notification sent successfully"] ;;
         ret (Some result))
        (fun error =>
           console_error [Txt "❌ Failed to send Pushover notification:"; ErrObj error] ;;
           throw error)
  end.

End SingleDevice.

(** ** The matching policies as the specification words them

    Following the specification, for comparison with the checkers above: a
    device specification carries one of two policies, and a device is
    available when at least one text satisfies its policy. *)

Module Policy.

Import Js.

Inductive Policy :=
| AllTermsPresent (matchTerms : list string)
| PresentNotOutOfStock.

Record DeviceSpec := mkSpec {
  code : string;
  displayName : string;
  policy : Policy;
  priority : Z;
  sound : string
}.

Definition satisfies (spec : DeviceSpec) (text : string) : Prop :=
  match policy spec with
  | AllTermsPresent matchTerms => Forall (fun term => Substring term text) matchTerms
  | PresentNotOutOfStock =>
      Substring (displayName spec) text /\ ~ Substring "Out of stock" text
  end.

Definition available (spec : DeviceSpec) (texts : list string) : Prop :=
  exists text, In text texts /\ satisfies spec text.

End Policy.

(** ** Notifier calls that are not awaited

    In the [catch] blocks of the two earlier generations the error
    notification is started and left alone:
    [sendNotification(...).catch(handler)] is followed by [throw error].  The
    call runs until its first [await], which is the part in [start]; the rest
    runs when the reply arrives, if the process is still there, which is the
    part in [settle]. *)

Module Unawaited.

Import Restock.

(** Up to the first [await]: without a client the call is over after its
    console line; with one, the message is handed to it and the reply is
    pending. *)
Definition start (pushover : option Push) (notificationMessage : PushoverMessage)
    : M (option (JsError + PushoverResult)) :=
  match pushover with
  | None =>
      console_log [Txt ("📱 Would send notification: " ++ msg_title notificationMessage
                        ++ " - " ++ msg_message notificationMessage)] ;;
      ret None
  | Some client =>
      fun env w =>
        (Ok (Some (pushover_reply env (List.length (handed_over w)) notificationMessage)),
         mkWorld (console w) (browser_calls w)
           (handed_over w ++ [notificationMessage])%list (notify_calls w) (browser w))
  end.

(** After the reply: the notifier's own line, and for a failure the line of
    the [.catch] handler. *)
Definition settle (pending : option (JsError + PushoverResult)) : M unit :=
  match pending with
  | None => ret tt
  | Some (inr _) => console_log [Txt "✅ Pushover notification sent successfully"]
  | Some (inl error) =>
      console_error [Txt "❌ Failed to send Pushover notification:"; ErrObj error] ;;
      console_error [Txt "Failed to send error notification:"; Txt (err_message error)]
  end.

(** [initializePushover()] of both generations, reading [process.env]. *)
Definition initializePushover : M (option Push) :=
  userKey <- ask PUSHOVER_USER ;;
  apiToken <- ask PUSHOVER_TOKEN ;;
  if truthy userKey && truthy apiToken then
    console_log [Txt "✅ Pushover notifications enabled"] ;;
    ret (Some (mkPush (str userKey) (str apiToken)))
  else
    console_log [Txt "⚠️ Pushover credentials not found - notifications disabled"] ;;
    ret None.

(** [try { body } catch (error) { handler; throw error } finally { close }]
    where the handler leaves a reply pending.  The only [await] after the
    handler is the one of [browser.close()]; [replyInTime] says whether the
    pending reply arrives during it.  Without a browser nothing is awaited
    and the reply comes too late. *)
Definition guarded (body : M unit) (handler : JsError -> M (option (JsError + PushoverResult)))
    (replyInTime : bool) : M unit :=
  fun env w =>
    let '(r, pending, w1) :=
      match body env w with
      | (Ok a, w1) => (Ok a, None, w1)
      | (Throw error, w1) =>
          match handler error env w1 with
          | (Ok pending, w2) => (Throw error, pending, w2)
          | (Throw e, w2) => (Throw e, None, w2)
          end
      end in
    match browser w1 with
    | None => (r, w1)
    | Some _ =>
        let (closed, w2) := puppeteer Close env w1 in
        let w3 := if replyInTime then snd (settle pending env w2) else w2 in
        match closed with
        | Ok _ => (r, w3)
        | Throw e => (Throw e, w3)
        end
    end.

End Unawaited.

(** ** The single-device generation: the check and the run *)

Module SingleDeviceRun.

Import Js Restock.

Definition checkOledAvailability (cartButtonTexts : list string) : bool :=
  existsb
    (fun buttonText =>
       includes buttonText "Steam Deck 512 GB OLED" && includes buttonText "Add to cart")
    cartButtonTexts.

Definition IN_STOCK_TITLE : string := "🚨 STEAM DECK IN STOCK! 🚨".
Definition CHECKER_ERROR_TITLE : string := "Steam Deck Checker Error".

(** The [try] block; the browser part is, call for call, the one of the
    newest generation. *)
Definition stockCheck (pushover : option Push) : M unit :=
  console_log [Txt "Starting Steam Deck stock check..."] ;;
  cartButtonTexts <- scrapeCartButtonTexts ;;
  console_log [Txt "Found cart buttons:"; Num (List.length cartButtonTexts)] ;;
  let isOled512gbAvailable := checkOledAvailability cartButtonTexts in
  console_log [CartButtonTexts cartButtonTexts] ;;
  console_log [Txt ("OLED 512GB Available: " ++ bool_text isOled512gbAvailable)] ;;
  if isOled512gbAvailable then
    console_log [Txt "🎉 OLED 512GB is in stock!"] ;;
    SingleDevice.sendNotification pushover
      ("🎉 Steam Deck OLED 512GB is now available for purchase!" ++ nl ++ nl
       ++ "Check: " ++ STORE_URL)
      (Some IN_STOCK_TITLE) (Some 1%Z) ;;
    ret tt
  else
    console_log [Txt "❌ No OLED 512GB in stock."].

(** The [catch] block up to its [throw]. *)
Definition reportError (pushover : option Push) (error : JsError)
    : M (option (JsError + PushoverResult)) :=
  console_error [Txt "❌ Error occurred:"; Txt (err_message error)] ;;
  Unawaited.start pushover
    (mkMessage ("Steam Deck checker encountered an error: " ++ err_message error)
       CHECKER_ERROR_TITLE 0 "pushover").

Definition checkSteamDeckStock (replyInTime : bool) : M unit :=
  set_browser None ;;
  pushover <- Unawaited.initializePushover ;;
  Unawaited.guarded (stockCheck pushover) (reportError pushover) replyInTime.

(** The script body; the result is the argument of [process.exit]. *)
Definition main (replyInTime : bool) (env : Env) (w : World) : Z * World :=
  match checkSteamDeckStock replyInTime env w with
  | (Ok _, w1) =>
      (0%Z, snd (console_log [Txt "✅ Stock check completed successfully"] env w1))
  | (Throw error, w1) =>
      (1%Z, snd (console_error [Txt "💥 Stock check failed:"; Txt (err_message error)]
                   env w1))
  end.

End SingleDeviceRun.

(** ** The search-term generation: the run *)

Module SearchTermsRun.

Import Js Restock.

(** What [DEVICES[key]] evaluates to in this generation. *)
Inductive Member :=
| OwnDevice (d : SearchTerms.Device)
| ProtoFunction (fname : string)
| ProtoObject.

Definition DEVICES_get (key : string) : option Member :=
  match assoc key SearchTerms.DEVICES with
  | Some d => Some (OwnDevice d)
  | None =>
      match assoc key OBJECT_PROTOTYPE with
      | Some fname => Some (ProtoFunction fname)
      | None => if String.eqb key "__proto__" then Some ProtoObject else None
      end
  end.

Definition get_name (m : Member) : option string :=
  match m with
  | OwnDevice d => Some (SearchTerms.name d)
  | ProtoFunction fname => Some fname
  | ProtoObject => None
  end.

Definition get_priority (m : Member) : option Z :=
  match m with
  | OwnDevice d => Some (SearchTerms.priority d)
  | _ => None
  end.

Definition get_sound (m : Member) : option string :=
  match m with
  | OwnDevice d => Some (SearchTerms.sound d)
  | _ => None
  end.

(** [checkDeviceAvailability(cartButtonTexts, device)] on such a value: a
    device without [searchTerms] makes the callback of [some] throw, as soon
    as there is a text to call it on. *)
Definition checkMember (cartButtonTexts : list string) (device : Member) : M bool :=
  match device with
  | OwnDevice d => ret (SearchTerms.checkDeviceAvailability cartButtonTexts d)
  | _ =>
      match cartButtonTexts with
      | [] => ret false
      | _ :: _ =>
          e <- new_Error "Cannot read properties of undefined (reading 'every')" ;;
          throw e
      end
  end.

Definition CHECKER_ERROR_TITLE : string := "Steam Deck Checker Error".

(** The [try] block; the browser part and the notifier are, line for line,
    those of the newest generation. *)
Definition stockCheck (pushover : option Push) (device : Member) : M unit :=
  console_log [Txt "Starting Steam Deck stock check..."] ;;
  cartButtonTexts <- scrapeCartButtonTexts ;;
  console_log [Txt "Found cart buttons:"; Num (List.length cartButtonTexts)] ;;
  isDeviceAvailable <- checkMember cartButtonTexts device ;;
  console_log [CartButtonTexts cartButtonTexts] ;;
  console_log [Txt (str (get_name device) ++ " Available: " ++ bool_text isDeviceAvailable)] ;;
  if isDeviceAvailable then
    console_log [Txt ("🎉 " ++ str (get_name device) ++ " is in stock!")] ;;
    upper <- match get_name device with
             | Some n => ret (toUpperCase n)
             | None =>
                 e <- new_Error "Cannot read properties of undefined (reading 'toUpperCase')" ;;
                 throw e
             end ;;
    sendNotification pushover
      ("🎉 " ++ str (get_name device) ++ " is now available for purchase!" ++ nl ++ nl
       ++ "Check: " ++ STORE_URL)
      (Some ("🚨 " ++ upper ++ " IN STOCK! 🚨"))
      (get_priority device) (get_sound device) ;;
    ret tt
  else
    console_log [Txt ("❌ No " ++ str (get_name device) ++ " in stock.")].

(** The [catch] block up to its [throw]; the call passes four arguments, so
    the sound is the default one. *)
Definition reportError (pushover : option Push) (error : JsError)
    : M (option (JsError + PushoverResult)) :=
  console_error [Txt "❌ Error occurred:"; Txt (err_message error)] ;;
  let notificationMessage :=
    mkMessage ("Steam Deck checker encountered an error: " ++ err_message error)
      CHECKER_ERROR_TITLE 0 "pushover" in
  record_call notificationMessage ;;
  Unawaited.start pushover notificationMessage.

Definition checkSteamDeckStock (deviceCode : string) (replyInTime : bool) : M unit :=
  set_browser None ;;
  match DEVICES_get deviceCode with
  | None =>
      e <- new_Error ("Unknown device code: " ++ deviceCode ++ ". Available: "
                      ++ join ", " (map fst SearchTerms.DEVICES)) ;;
      throw e
  | Some device =>
      console_log [Txt ("🔍 Monitoring " ++ str (get_name device) ++ "...")] ;;
      pushover <- Unawaited.initializePushover ;;
      Unawaited.guarded (stockCheck pushover device) (reportError pushover) replyInTime
  end.

Fixpoint printDevices (entries : list (string * SearchTerms.Device)) : M unit :=
  match entries with
  | [] => ret tt
  | (code, device) :: rest =>
      console_log [Txt ("  " ++ padEnd code 10 ++ " - " ++ SearchTerms.name device)] ;;
      printDevices rest
  end.

(** The script body, on the device and the [--list-devices] flag that
    [parseSync] returns; the result is the argument of [process.exit]. *)
Definition main (device : string) (listDevices : bool) (replyInTime : bool)
    (env : Env) (w : World) : Z * World :=
  if listDevices then
    (0%Z,
     snd ((console_log [Txt "📱 Available Steam Deck devices:"] ;;
           printDevices SearchTerms.DEVICES) env w))
  else
    match checkSteamDeckStock device replyInTime env w with
    | (Ok _, w1) =>
        (0%Z, snd (console_log [Txt "✅ Stock check completed successfully"] env w1))
    | (Throw error, w1) =>
        (1%Z, snd (console_error [Txt "💥 Stock check failed:"; Txt (err_message error)]
                     env w1))
    end.

End SearchTermsRun.

(** * Properties *)

(** ** Strings *)

Module JsFacts.

Import Js.

Lemma append_empty_r (s : string) : s ++ "" = s.
Proof. induction s as [|c s IH]; simpl; [reflexivity | now rewrite IH]. Qed.

Lemma append_assoc (a b c : string) : (a ++ b) ++ c = a ++ b ++ c.
Proof. induction a as [|x a IH]; simpl; [reflexivity | now rewrite IH]. Qed.

Lemma prefix_iff (search text : string) :
  String.prefix search text = true <-> exists after, text = search ++ after.
Proof.
  revert text.
  induction search as [|a search IH]; intros text; simpl.
  - split; [intros _; now exists text | now destruct text].
  - destruct text as [|b text].
    + split; [discriminate | intros [after H]; discriminate].
    + cbn [String.prefix]. destruct (ascii_dec a b) as [->|Hne].
      * split.
        -- intros H. apply IH in H. destruct H as [after H].
           exists after. now rewrite H.
        -- intros [after H]. apply IH. exists after. now injection H.
      * split; [discriminate | intros [after H]].
        injection H as Hab _. now elim Hne.
Qed.

Lemma includes_iff (text search : string) :
  includes text search = true <-> Substring search text.
Proof.
  unfold Substring.
  induction text as [|c text IH].
  - cbn [includes]. rewrite orb_false_r, prefix_iff. split.
    + intros [after H]. now exists "", after.
    + intros [[|b before] [after H]]; [now exists after | discriminate].
  - cbn [includes]. rewrite orb_true_iff, prefix_iff, IH. split.
    + intros [[after H] | [before [after H]]].
      * now exists "", after.
      * exists (String c before), after. simpl. now rewrite H.
    + intros [[|b before] [after H]].
      * left. now exists after.
      * right. injection H as _ H. now exists before, after.
Qed.

Lemma includes_false_iff (text search : string) :
  includes text search = false <-> ~ Substring search text.
Proof.
  rewrite <- includes_iff. now destruct (includes text search).
Qed.

Lemma Substring_refl (s : string) : Substring s s.
Proof. exists "", "". simpl. now rewrite append_empty_r. Qed.

Lemma Substring_append_l (s before text : string) :
  Substring s text -> Substring s (before ++ text).
Proof.
  intros [b [a H]]. exists (before ++ b), a. now rewrite H, append_assoc.
Qed.

Lemma Substring_append_r (s text after : string) :
  Substring s text -> Substring s (text ++ after).
Proof.
  intros [b [a H]]. exists b, (a ++ after). now rewrite H, !append_assoc.
Qed.

(** What occurs in the rendering of an element occurs in the joined array. *)
Lemma Substring_join {A} (sep : string) (f : A -> string) (s : string) (x : A)
    (parts : list A) :
  Substring s (f x) -> In x parts -> Substring s (join sep (map f parts)).
Proof.
  intros Hf. induction parts as [|p parts IH]; [contradiction|].
  intros [->|Hin].
  - destruct parts as [|q parts]; cbn [map join]; [apply Hf|].
    apply Substring_append_r, Hf.
  - specialize (IH Hin). destruct parts as [|q parts]; [contradiction|].
    change (join sep (map f (p :: q :: parts)))
      with (f p ++ sep ++ join sep (map f (q :: parts))).
    now apply Substring_append_l, Substring_append_l.
Qed.

End JsFacts.

(** ** Classification *)

Module Classification.

Import Js JsFacts Restock.

Local Abbreviation matches texts :=
  (fun entry : string * Device => checkDeviceAvailability texts (OwnDevice (snd entry))).

(** The [forEach] loop is a filter of the catalog that keeps its order. *)
Lemma collectAvailable_filter (texts : list string) (entries : list (string * Device))
    (acc : list string) :
  collectAvailable texts entries acc
  = (acc ++ map fst (filter (matches texts) entries))%list.
Proof.
  revert acc. induction entries as [|[code d] entries IH]; intros acc.
  - simpl. now rewrite app_nil_r.
  - cbn [collectAvailable filter snd].
    rewrite IH.
    destruct (checkDeviceAvailability texts (OwnDevice d)); [|reflexivity].
    cbn [map fst]. now rewrite <- app_assoc.
Qed.

Lemma checkAll_filter (texts : list string) :
  checkAllDevicesAvailability texts = map fst (filter (matches texts) DEVICES).
Proof. unfold checkAllDevicesAvailability. now rewrite collectAvailable_filter. Qed.

Lemma keys_NoDup : NoDup (map fst DEVICES).
Proof.
  repeat constructor; cbn; intuition discriminate.
Qed.

Lemma NoDup_keys_functional {A} (entries : list (string * A)) (k : string) (a b : A) :
  NoDup (map fst entries) -> In (k, a) entries -> In (k, b) entries -> a = b.
Proof.
  induction entries as [|[k' v] entries IH]; [contradiction|].
  cbn [map fst]. intros Hnd Ha Hb. inversion Hnd as [|? ? Hnotin Hnd']; subst.
  destruct Ha as [Ha|Ha], Hb as [Hb|Hb].
  - congruence.
  - injection Ha as -> ->. elim Hnotin. now apply (in_map fst _ (k, b)).
  - injection Hb as -> ->. elim Hnotin. now apply (in_map fst _ (k, a)).
  - now apply IH.
Qed.

Lemma assoc_In {A} (entries : list (string * A)) (k : string) (a : A) :
  NoDup (map fst entries) -> In (k, a) entries -> assoc k entries = Some a.
Proof.
  induction entries as [|[k' v] entries IH]; [contradiction|].
  cbn [map fst assoc]. intros Hnd Hin. inversion Hnd as [|? ? Hnotin Hnd']; subst.
  destruct Hin as [Heq|Hin].
  - injection Heq as -> ->. now rewrite String.eqb_refl.
  - destruct (String.eqb_spec k k') as [->|_]; [|now apply IH].
    elim Hnotin. now apply (in_map fst _ (k', a)).
Qed.

Lemma assoc_Some_In {A} (entries : list (string * A)) (k : string) (a : A) :
  assoc k entries = Some a -> In (k, a) entries.
Proof.
  induction entries as [|[k' v] entries IH]; [discriminate|].
  cbn [assoc]. destruct (String.eqb_spec k k') as [->|_].
  - intros [= ->]. now left.
  - intros H. right. now apply IH.
Qed.

(** A catalog code is reported exactly when its own device matches. *)
Lemma In_checkAll (texts : list string) (code : string) (d : Device) :
  In (code, d) DEVICES ->
  In code (checkAllDevicesAvailability texts)
  <-> checkDeviceAvailability texts (OwnDevice d) = true.
Proof.
  intros Hin. rewrite checkAll_filter, in_map_iff. split.
  - intros [[code' d'] [Hfst Hf]]. cbn [fst] in Hfst. subst code'.
    apply filter_In in Hf. destruct Hf as [Hin' Hm].
    now rewrite (NoDup_keys_functional DEVICES code d d' keys_NoDup Hin Hin').
  - intros Hm. exists (code, d). split; [reflexivity|].
    apply filter_In. now split.
Qed.

Lemma checkAll_subset_catalog (texts : list string) (code : string) :
  In code (checkAllDevicesAvailability texts) ->
  exists d, In (code, d) DEVICES /\ checkDeviceAvailability texts (OwnDevice d) = true.
Proof.
  rewrite checkAll_filter, in_map_iff.
  intros [[code' d] [Hfst Hf]]. cbn [fst] in Hfst. subst code'.
  apply filter_In in Hf. now exists d.
Qed.

(** The per-device test, text by text. *)
Lemma checkDevice_iff (texts : list string) (d : Device) :
  checkDeviceAvailability texts (OwnDevice d) = true
  <-> exists text,
        In text texts /\ Substring (name d) text /\ ~ Substring "Out of stock" text.
Proof.
  unfold checkDeviceAvailability. cbn [get_name str].
  rewrite existsb_exists. split; intros [text [Hin H]]; exists text; split; trivial.
  - apply andb_true_iff in H. destruct H as [H1 H2].
    apply includes_iff in H1. apply negb_true_iff, includes_false_iff in H2. now split.
  - destruct H as [H1 H2]. apply andb_true_iff. split.
    + now apply includes_iff.
    + now apply negb_true_iff, includes_false_iff.
Qed.

Lemma checkDevice_Permutation (texts texts' : list string) (m : Member) :
  Permutation texts texts' ->
  checkDeviceAvailability texts m = checkDeviceAvailability texts' m.
Proof.
  unfold checkDeviceAvailability.
  induction 1 as [|t l l' _ IH|t u l|l l' l'' _ IH1 _ IH2]; cbn [existsb].
  - reflexivity.
  - now rewrite IH.
  - now rewrite !orb_assoc, (orb_comm (_ && _) (_ && _)).
  - now rewrite IH1.
Qed.

Lemma checkDevice_app (texts more : list string) (m : Member) :
  checkDeviceAvailability (texts ++ more) m
  = checkDeviceAvailability texts m || checkDeviceAvailability more m.
Proof. unfold checkDeviceAvailability. apply existsb_app. Qed.

Lemma filter_matches_ext (texts texts' : list string) (entries : list (string * Device)) :
  (forall m, checkDeviceAvailability texts m = checkDeviceAvailability texts' m) ->
  filter (matches texts) entries = filter (matches texts') entries.
Proof.
  intros H. apply filter_ext. intros [code d]. apply H.
Qed.

(** Claim C1: for every sequence of cart-button texts and every device of the
    catalog, the device's code is in the result of the all-devices
    classification exactly when some text of the sequence contains the
    device's display name and does not contain "Out of stock"; and the
    classification of the empty sequence is empty, for the device and for the
    whole catalog. *)
Theorem available_iff_named_and_not_out_of_stock
    (texts : list string) (code : string) (d : Device) :
  In (code, d) DEVICES ->
  (In code (checkAllDevicesAvailability texts)
   <-> exists text,
         In text texts /\ Substring (name d) text /\ ~ Substring "Out of stock" text)
  /\ checkDeviceAvailability [] (OwnDevice d) = false
  /\ checkAllDevicesAvailability [] = [].
Proof.
  intros Hin. split; [|split; reflexivity].
  rewrite (In_checkAll texts code d Hin). apply checkDevice_iff.
Qed.

Lemma available_iff_named_and_not_out_of_stock_witness :
  let d := mkDevice "Steam Deck LCD 256GB" 0 "pushover" in
  let texts := ["Steam Deck OLED 1TB ... Out of stock";
                "Steam Deck LCD 256GB ... Add to cart"] in
  In ("lcd-256", d) DEVICES
  /\ ((In "lcd-256" (checkAllDevicesAvailability texts)
       <-> exists text,
             In text texts /\ Substring (name d) text /\ ~ Substring "Out of stock" text)
      /\ checkDeviceAvailability [] (OwnDevice d) = false
      /\ checkAllDevicesAvailability [] = []).
Proof.
  intros d texts.
  assert (Hin : In ("lcd-256", d) DEVICES) by (cbn; auto).
  split; [exact Hin|].
  exact (available_iff_named_and_not_out_of_stock texts "lcd-256" d Hin).
Defined.

(** Claim C9: the classification does not depend on the order of the texts (a
    permutation of the sequence gives the same availability result), and it is
    a function of the texts alone (equal inputs give equal results). *)
Theorem classification_order_independent (texts texts' : list string) :
  (Permutation texts texts' ->
   checkAllDevicesAvailability texts = checkAllDevicesAvailability texts')
  /\ (texts = texts' ->
      checkAllDevicesAvailability texts = checkAllDevicesAvailability texts').
Proof.
  split.
  - intros Hp. rewrite !checkAll_filter. f_equal.
    apply filter_matches_ext. intros m. now apply checkDevice_Permutation.
  - now intros ->.
Qed.

Lemma classification_order_independent_witness :
  let texts := ["Steam Deck LCD 256GB ... Add to cart";
                "Steam Deck OLED 1TB ... Add to cart"] in
  let texts' := ["Steam Deck OLED 1TB ... Add to cart";
                 "Steam Deck LCD 256GB ... Add to cart"] in
  Permutation texts texts'
  /\ checkAllDevicesAvailability texts = checkAllDevicesAvailability texts'
  /\ checkAllDevicesAvailability texts = ["oled-1tb"; "lcd-256"].
Proof.
  intros texts texts'.
  assert (Hp : Permutation texts texts') by apply perm_swap.
  split; [exact Hp|]. split.
  - exact (proj1 (classification_order_independent texts texts') Hp).
  - reflexivity.
Defined.

(** Claim C10: the classification is monotone in the texts: every device code
    available for a sequence of texts is still available after more texts are
    added to the sequence. *)
Theorem classification_monotone (texts more : list string) (code : string) :
  In code (checkAllDevicesAvailability texts) ->
  In code (checkAllDevicesAvailability (texts ++ more)).
Proof.
  intros H. apply checkAll_subset_catalog in H. destruct H as [d [Hin Hm]].
  apply (In_checkAll _ code d Hin). now rewrite checkDevice_app, Hm.
Qed.

Lemma classification_monotone_witness :
  let texts := ["Steam Deck LCD 256GB ... Add to cart"] in
  let more := ["Steam Deck OLED 1TB ... Add to cart"; "Steam Deck LCD 256GB Out of stock"] in
  In "lcd-256" (checkAllDevicesAvailability texts)
  /\ In "lcd-256" (checkAllDevicesAvailability (texts ++ more)).
Proof.
  intros texts more.
  assert (H : In "lcd-256" (checkAllDevicesAvailability texts)) by (cbn; auto).
  split; [exact H|].
  exact (classification_monotone texts more "lcd-256" H).
Defined.

End Classification.

(** ** Runs of the script *)

Module Runs.

Import Js JsFacts Restock Classification.

(** Steps of a run, one at a time. *)
Ltac run_step :=
  match goal with
  | |- context [rejects ?env ?call] => destruct (rejects env call) eqn:?
  | |- context [pushover_reply ?env ?n ?m] => destruct (pushover_reply env n m) eqn:?
  end.

Ltac run := cbv [bind ret throw ask try_catch try_finally console_log console_error
                 puppeteer set_browser get_browser pushoverSend record_call new_Error];
            cbn [fst snd console browser_calls handed_over notify_calls browser].

Lemma evaluateAll_run (containers : list string) :
  forall index acc env w,
    handed_over (snd (evaluateAll index containers acc env w)) = handed_over w
    /\ notify_calls (snd (evaluateAll index containers acc env w)) = notify_calls w
    /\ (browser w <> None ->
        browser (snd (evaluateAll index containers acc env w)) <> None)
    /\ forall w', fst (evaluateAll index containers acc env w')
                  = fst (evaluateAll index containers acc env w).
Proof.
  induction containers as [|text rest IH]; intros index acc env w.
  - cbn. auto.
  - cbn [evaluateAll]. run. destruct (rejects env (Evaluate index)) eqn:Hr.
    + cbn. auto.
    + destruct (IH (S index) (acc ++ [text])%list env
                  (mkWorld (console w) (browser_calls w ++ [Evaluate index])
                     (handed_over w) (notify_calls w) (browser w)))
        as (H1 & H2 & H3 & H4).
      cbn in H1, H2, H3. repeat split; trivial.
Qed.

(** The browser part hands nothing to Pushover, and its outcome is the one
    the environment fixes. *)
Lemma scrape_run (env : Env) (w : World) :
  fst (scrapeCartButtonTexts env w) = scrape_outcome env
  /\ handed_over (snd (scrapeCartButtonTexts env w)) = handed_over w
  /\ notify_calls (snd (scrapeCartButtonTexts env w)) = notify_calls w.
Proof.
  unfold scrape_outcome, scrapeCartButtonTexts. run.
  repeat (run_step; [cbn; auto|]).
  match goal with
  | |- context [evaluateAll 0 ?c [] env ?w0] =>
      destruct (evaluateAll_run c 0%nat [] env w0) as (H1 & H2 & _ & H4)
  end.
  cbn in H1, H2. repeat split; trivial.
  etransitivity; [apply H4 | symmetry; apply H4].
Qed.

(** What one invocation of the notifier does: it is recorded, the message
    goes to the client when there is one, and only a failed delivery throws. *)
Lemma sendNotification_run (pushover : option Push) (message : string)
    (title : option string) (priority : option Z) (sound : option string)
    (env : Env) (w : World) :
  let n := mkMessage message (default "Steam Deck Restock Alert" title)
             (default 0%Z priority) (default "pushover" sound) in
  let r := fst (sendNotification pushover message title priority sound env w) in
  let w' := snd (sendNotification pushover message title priority sound env w) in
  notify_calls w' = (notify_calls w ++ [n])%list
  /\ handed_over w'
     = (handed_over w ++ match pushover with Some _ => [n] | None => [] end)%list
  /\ browser w' = browser w
  /\ browser_calls w' = browser_calls w
  /\ match pushover with
     | None =>
         r = Ok None
         /\ console w'
            = (console w
               ++ [(Stdout, [Txt ("📱 Would send notification: " ++ msg_title n
                                  ++ " - " ++ message)])])%list
     | Some _ =>
         match pushover_reply env (List.length (handed_over w)) n with
         | inr result => r = Ok (Some result)
         | inl error =>
             r = Throw error
             /\ console w'
                = (console w
                   ++ [(Stderr, [Txt "❌ Failed to send Pushover notification:";
                                 ErrObj error])])%list
         end
     end.
Proof.
  unfold sendNotification. destruct pushover as [client|]; run.
  - run_step; cbn; rewrite ?app_nil_r; auto 10.
  - cbn. rewrite ?app_nil_r. auto 10.
Qed.

(** The [finally] block. *)
Lemma cleanup_run (env : Env) (w : World) :
  let cleanup := (b <- get_browser ;;
                  match b with
                  | Some _ => puppeteer Close
                  | None => ret tt
                  end) in
  notify_calls (snd (cleanup env w)) = notify_calls w
  /\ handed_over (snd (cleanup env w)) = handed_over w
  /\ console (snd (cleanup env w)) = console w
  /\ (rejects env Close = None -> fst (cleanup env w) = Ok tt).
Proof.
  run. destruct (browser w); run.
  - destruct (rejects env Close); cbn; repeat split; trivial; discriminate.
  - cbn. auto.
Qed.

(** The [catch] block: one error notification, whose own failure is logged
    and dropped, and then the caught error again. *)
Lemma reportError_run (pushover : option Push) (device : Member) (error : JsError)
    (env : Env) (w : World) :
  let r := fst (reportError pushover device error env w) in
  let w' := snd (reportError pushover device error env w) in
  r = Throw error
  /\ exists n,
       notify_calls w' = (notify_calls w ++ [n])%list
       /\ handed_over w'
          = (handed_over w ++ match pushover with Some _ => [n] | None => [] end)%list
       /\ msg_title n = ERROR_TITLE
       /\ msg_priority n = 1%Z
       /\ Substring (err_message error) (msg_message n)
       /\ forall client failure,
            pushover = Some client ->
            pushover_reply env (List.length (handed_over w)) n = inl failure ->
            In (Stderr, [Txt "❌ Failed to send error notification:";
                         Txt (err_message failure)]) (console w').
Proof.
  unfold reportError.
  cbv [bind try_catch ask console_error console_log throw]. 
  match goal with
  | |- context [sendNotification ?p ?m ?t ?pr ?s env ?w0] =>
      pose proof (sendNotification_run p m t pr s env w0) as H;
      destruct (sendNotification p m t pr s env w0) as [r1 w1];
      set (body := m) in *
  end.
  cbn [fst snd default notify_calls handed_over browser browser_calls console] in H.
  destruct H as (Hn & Hh & _ & _ & Hr).
  assert (Hsub : Substring (err_message error) body).
  { unfold body. apply Substring_append_l, Substring_append_l, Substring_append_l.
    apply Substring_append_r, Substring_refl. }
  destruct r1 as [a|failure]; cbn [fst snd notify_calls handed_over console].
  - split; [reflexivity|]. eexists. repeat split; try eassumption; trivial.
    intros client failure -> Hf. rewrite Hf in Hr. now destruct Hr.
  - split; [reflexivity|]. eexists. repeat split; try eassumption; trivial.
    intros client failure' -> Hf. rewrite Hf in Hr. destruct Hr as [[= ->] _].
    apply in_or_app. right. now left.
Qed.

Lemma DEVICES_get_own (code : string) (d : Device) :
  In (code, d) DEVICES -> DEVICES_get code = Some (OwnDevice d).
Proof.
  intros Hin. unfold DEVICES_get. now rewrite (assoc_In DEVICES code d keys_NoDup Hin).
Qed.

(** The names looked up for codes of the catalog. *)
Lemma deviceNames_run (codes : list string) (env : Env) (w : World) :
  (forall c, In c codes -> exists d, In (c, d) DEVICES) ->
  exists names,
    deviceNames codes env w = (Ok names, w)
    /\ forall c d, In c codes -> In (c, d) DEVICES -> In (Some (name d)) names.
Proof.
  induction codes as [|code codes IH]; intros Hown.
  - exists []. split; [reflexivity | contradiction].
  - destruct (Hown code (or_introl eq_refl)) as [d Hd].
    destruct IH as [names [Hrun Hnames]].
    { intros c Hc. apply Hown. now right. }
    exists (Some (name d) :: names). split.
    + cbn [deviceNames]. rewrite (DEVICES_get_own code d Hd). run. now rewrite Hrun.
    + intros c d' [<-|Hc] Hd'.
      * left. now rewrite (NoDup_keys_functional DEVICES code d d' keys_NoDup Hd Hd').
      * right. now apply (Hnames c).
Qed.

(** The [try] block up to the decision: a failing browser part is its
    outcome, a successful one leads to the decision on the scraped texts. *)
Lemma stockCheck_run (pushover : option Push) (notifySuccess : bool) (device : Member)
    (env : Env) (w : World) :
  exists w1,
    notify_calls w1 = notify_calls w
    /\ handed_over w1 = handed_over w
    /\ stockCheck pushover notifySuccess device env w
       = match scrape_outcome env with
         | Ok texts =>
             announce pushover notifySuccess device
               (checkDeviceAvailability texts device)
               (checkAllDevicesAvailability texts) env w1
         | Throw e => (Throw e, w1)
         end.
Proof.
  unfold stockCheck. cbv [bind console_log].
  match goal with
  | |- context [scrapeCartButtonTexts env ?w0] =>
      destruct (scrape_run env w0) as (Hr & Hh & Hn);
      destruct (scrapeCartButtonTexts env w0) as [r w1]
  end.
  cbn [fst snd handed_over notify_calls] in Hr, Hh, Hn. rewrite <- Hr.
  destruct r as [texts|e]; eexists; (split; [|split; [|reflexivity]]); cbn; trivial.
Qed.

(** The decision when the monitored device is out and others are in. *)
Lemma announce_others (pushover : option Push) (notifySuccess : bool) (d : Device)
    (available : list string) (env : Env) (w : World) :
  available <> [] ->
  (forall c, In c available -> exists d', In (c, d') DEVICES) ->
  let r := fst (announce pushover notifySuccess (OwnDevice d) false available env w) in
  let w' := snd (announce pushover notifySuccess (OwnDevice d) false available env w) in
  exists n,
    notify_calls w' = (notify_calls w ++ [n])%list
    /\ handed_over w'
       = (handed_over w ++ match pushover with Some _ => [n] | None => [] end)%list
    /\ msg_title n = OTHER_TITLE
    /\ msg_priority n = 0%Z
    /\ (forall c d', In c available -> In (c, d') DEVICES ->
        Substring (name d') (msg_message n))
    /\ (pushover = None -> r = Ok tt).
Proof.
  intros Hne Hown. unfold announce.
  destruct available as [|c0 rest] eqn:Ha; [congruence|]. rewrite <- Ha in *.
  replace (0 <? Datatypes.length available)%nat with true by (now rewrite Ha).
  destruct (deviceNames_run available env
              (mkWorld (console w
                        ++ [(Stdout, [Txt ("❌ No " ++ str (get_name (OwnDevice d))
                                           ++ " in stock.")])])
                 (browser_calls w) (handed_over w) (notify_calls w) (browser w)) Hown)
    as [names [Hrun Hnames]].
  cbv [bind console_log ret]. rewrite Hrun.
  match goal with
  | |- context [sendNotification ?p ?m ?t ?pr ?s env ?w0] =>
      pose proof (sendNotification_run p m t pr s env w0) as H;
      destruct (sendNotification p m t pr s env w0) as [r1 w1];
      set (body := m) in *
  end.
  cbn [fst snd default notify_calls handed_over browser browser_calls console] in H.
  destruct H as (Hn & Hh & _ & _ & Hr).
  exists (mkMessage body OTHER_TITLE 0 "pushover").
  assert (Hbody : forall c d', In c available -> In (c, d') DEVICES ->
                              Substring (name d') body).
  { intros c d' Hc Hd'. unfold body.
    do 5 apply Substring_append_l. apply Substring_append_r.
    apply (Substring_join nl _ (name d') (Some (name d'))).
    - cbn [str]. apply Substring_append_l, Substring_refl.
    - now apply (Hnames c). }
  destruct r1 as [a|e]; cbn [fst snd msg_title msg_priority msg_message];
    repeat split; trivial.
  intros ->. now destruct Hr.
Qed.

(** The decision when nothing is in stock and the heartbeat is requested. *)
Lemma announce_heartbeat (pushover : option Push) (d : Device) (env : Env) (w : World) :
  let r := fst (announce pushover true (OwnDevice d) false [] env w) in
  let w' := snd (announce pushover true (OwnDevice d) false [] env w) in
  exists n,
    notify_calls w' = (notify_calls w ++ [n])%list
    /\ handed_over w'
       = (handed_over w ++ match pushover with Some _ => [n] | None => [] end)%list
    /\ msg_title n = HEARTBEAT_TITLE
    /\ msg_priority n = 0%Z
    /\ (pushover = None -> r = Ok tt).
Proof.
  unfold announce. cbn [List.length Nat.ltb Nat.leb].
  cbv [bind console_log ret ask].
  match goal with
  | |- context [sendNotification ?p ?m ?t ?pr ?s env ?w0] =>
      pose proof (sendNotification_run p m t pr s env w0) as H;
      destruct (sendNotification p m t pr s env w0) as [r1 w1];
      set (body := m) in *
  end.
  cbn [fst snd default notify_calls handed_over browser browser_calls console] in H.
  destruct H as (Hn & Hh & _ & _ & Hr).
  exists (mkMessage body HEARTBEAT_TITLE 0 "pushover").
  destruct r1 as [a|e]; cbn [fst snd msg_title msg_priority]; repeat split; trivial.
  intros ->. now destruct Hr.
Qed.

(** The decision when nothing is in stock and no heartbeat is requested: a
    console line and nothing else. *)
Lemma announce_nothing (pushover : option Push) (d : Device) (env : Env) (w : World) :
  fst (announce pushover false (OwnDevice d) false [] env w) = Ok tt
  /\ notify_calls (snd (announce pushover false (OwnDevice d) false [] env w))
     = notify_calls w
  /\ handed_over (snd (announce pushover false (OwnDevice d) false [] env w))
     = handed_over w.
Proof. cbn. auto. Qed.

(** The whole function for a device of the catalog, in terms of its [try]
    block: a normal completion is followed by the cleanup only; an exception
    by one error notification, the cleanup, and the same exception. *)
Lemma checkSteamDeckStock_run (code : string) (d : Device) (pushover : option Push)
    (notifySuccess : bool) (env : Env) (w : World) :
  In (code, d) DEVICES ->
  exists w1,
    notify_calls w1 = notify_calls w
    /\ handed_over w1 = handed_over w
    /\ let r1 := fst (stockCheck pushover notifySuccess (OwnDevice d) env w1) in
       let w2 := snd (stockCheck pushover notifySuccess (OwnDevice d) env w1) in
       let r := fst (checkSteamDeckStock code pushover notifySuccess env w) in
       let w' := snd (checkSteamDeckStock code pushover notifySuccess env w) in
       match r1 with
       | Ok _ =>
           notify_calls w' = notify_calls w2
           /\ handed_over w' = handed_over w2
           /\ (rejects env Close = None -> r = Ok tt)
       | Throw e =>
           (exists e', r = Throw e')
           /\ (rejects env Close = None -> r = Throw e)
           /\ exists n,
                notify_calls w' = (notify_calls w2 ++ [n])%list
                /\ handed_over w'
                   = (handed_over w2
                      ++ match pushover with Some _ => [n] | None => [] end)%list
                /\ msg_title n = ERROR_TITLE
                /\ msg_priority n = 1%Z
                /\ Substring (err_message e) (msg_message n)
                /\ forall client failure,
                     pushover = Some client ->
                     pushover_reply env (List.length (handed_over w2)) n = inl failure ->
                     In (Stderr, [Txt "❌ Failed to send error notification:";
                                  Txt (err_message failure)]) (console w')
       end.
Proof.
  intros Hin.
  exists (mkWorld (console w ++ [(Stdout, [Txt ("🔍 Monitoring " ++ name d ++ "...")])])
            (browser_calls w) (handed_over w) (notify_calls w) None).
  split; [reflexivity|]. split; [reflexivity|].
  unfold checkSteamDeckStock. rewrite (DEVICES_get_own code d Hin).
  cbv [bind set_browser console_log try_finally try_catch get_browser puppeteer ret].
  cbn [get_name str console browser_calls handed_over notify_calls browser].
  match goal with
  | |- context [stockCheck ?p ?ns ?m env ?w0] =>
      destruct (stockCheck p ns m env w0) as [r1 w2]
  end.
  cbn [fst snd]. destruct r1 as [[]|e].
  - destruct (browser w2); [destruct (rejects env Close)|]; cbn; repeat split; trivial.
    discriminate.
  - pose proof (reportError_run pushover (OwnDevice d) e env w2) as H.
    destruct (reportError pushover (OwnDevice d) e env w2) as [r3 w3].
    cbn [fst snd] in H. destruct H as (-> & n & Hn & Hh & Ht & Hp & Hs & Hlog).
    destruct (browser w3); [destruct (rejects env Close) as [e'|]|]; cbn [fst snd];
      (split; [eexists; reflexivity|]);
      (split; [try reflexivity; discriminate|]);
      exists n; cbn [notify_calls handed_over console]; repeat split; trivial.
Qed.

(** The [.catch] handler of the script: with a client, one more
    notification, of emergency priority; its failure is dropped as well. *)
Lemma reportCritical_run (pushover : option Push) (error : JsError) (env : Env)
    (w : World) :
  exists rest,
    notify_calls (snd (reportCritical pushover error env w))
    = (notify_calls w ++ rest)%list
    /\ Forall (fun m => msg_title m = CRITICAL_TITLE /\ msg_priority m = 2%Z) rest
    /\ (pushover = None -> rest = []).
Proof.
  unfold reportCritical. destruct pushover as [client|].
  - cbv [bind try_catch ask console_error console_log].
    match goal with
    | |- context [sendNotification ?p ?m ?t ?pr ?s env ?w0] =>
        pose proof (sendNotification_run p m t pr s env w0) as H;
        destruct (sendNotification p m t pr s env w0) as [r1 w1]
    end.
    cbn [fst snd default notify_calls console] in H. destruct H as (Hn & _).
    eexists. split; [|split; [|discriminate]].
    + destruct r1; cbn [snd notify_calls]; exact Hn.
    + now repeat constructor.
  - exists []. cbn. rewrite app_nil_r. auto.
Qed.

(** The script around the function: the client is set up, the function
    called once, and its outcome mapped to the exit code. *)
Lemma main_run (argv : Argv) (env : Env) (w0 : World) :
  listDevices argv = false ->
  exists pushover w1,
    notify_calls w1 = notify_calls w0
    /\ handed_over w1 = handed_over w0
    /\ let run := checkSteamDeckStock (device argv) pushover (notifySuccess argv) env w1 in
       match fst run with
       | Ok _ =>
           fst (main argv env w0) = 0%Z
           /\ notify_calls (snd (main argv env w0)) = notify_calls (snd run)
           /\ handed_over (snd (main argv env w0)) = handed_over (snd run)
       | Throw _ =>
           fst (main argv env w0) = 1%Z
           /\ exists rest,
                notify_calls (snd (main argv env w0))
                = (notify_calls (snd run) ++ rest)%list
                /\ Forall (fun m => msg_title m = CRITICAL_TITLE
                                    /\ msg_priority m = 2%Z) rest
       end.
Proof.
  intros Hl. unfold main, initializePushover. rewrite Hl.
  destruct (truthy _ && truthy _); cbv [bind console_log ret];
    match goal with
    | |- context [checkSteamDeckStock ?c (Some ?p) ?ns env ?w1] => exists (Some p), w1
    | |- context [checkSteamDeckStock ?c None ?ns env ?w1] => exists None, w1
    end;
    (split; [reflexivity|]); (split; [reflexivity|]); cbv zeta;
    match goal with
    | |- context [checkSteamDeckStock ?c ?p ?ns env ?w1] =>
        destruct (checkSteamDeckStock c p ns env w1) as [[[]|e] w2]
    end;
    cbn [fst snd notify_calls handed_over]; auto;
    match goal with
    | |- context [reportCritical ?p ?e0 env ?w3] =>
        destruct (reportCritical_run p e0 env w3) as (rest & Hn & Hf & _);
        destruct (reportCritical p e0 env w3);
        cbn [fst snd] in *; split; [reflexivity | now exists rest]
    end.
Qed.

Lemma unavailable_when_not_listed (texts : list string) (code : string) (d : Device) :
  In (code, d) DEVICES ->
  ~ In code (checkAllDevicesAvailability texts) ->
  checkDeviceAvailability texts (OwnDevice d) = false.
Proof.
  intros Hin Hno. destruct (checkDeviceAvailability texts (OwnDevice d)) eqn:E; trivial.
  elim Hno. now apply (In_checkAll texts code d Hin).
Qed.

Lemma titles_differ : ERROR_TITLE <> OTHER_TITLE /\ ERROR_TITLE <> HEARTBEAT_TITLE.
Proof. split; intros H; apply String.eqb_eq in H; discriminate. Qed.

(** Claim C2: in every run where the monitored device is not in the
    availability result and some other catalog device is, the function
    invokes the notifier for exactly one "other devices available" message;
    it has priority 0 whichever devices are available, and its body contains
    the display name of every available device.  With a client the messages
    handed to it are the same. *)
Theorem other_devices_notified_once (env : Env) (w : World) (code : string) (d : Device)
    (pushover : option Push) (notifySuccess : bool) (texts : list string) :
  In (code, d) DEVICES ->
  scrape_outcome env = Ok texts ->
  ~ In code (checkAllDevicesAvailability texts) ->
  checkAllDevicesAvailability texts <> [] ->
  let w' := snd (checkSteamDeckStock code pushover notifySuccess env w) in
  exists n rest,
    notify_calls w' = (notify_calls w ++ n :: rest)%list
    /\ handed_over w'
       = (handed_over w ++ match pushover with Some _ => n :: rest | None => [] end)%list
    /\ msg_title n = OTHER_TITLE
    /\ msg_priority n = 0%Z
    /\ (forall code' d', In (code', d') DEVICES ->
        In code' (checkAllDevicesAvailability texts) ->
        Substring (name d') (msg_message n))
    /\ Forall (fun m => msg_title m <> OTHER_TITLE) rest
    /\ (pushover = None -> rest = []).
Proof.
  intros Hin Hs Hno Hne.
  destruct (checkSteamDeckStock_run code d pushover notifySuccess env w Hin)
    as (w1 & Hn1 & Hh1 & H).
  destruct (stockCheck_run pushover notifySuccess (OwnDevice d) env w1)
    as (w2 & Hn2 & Hh2 & Hrun).
  rewrite Hs, (unavailable_when_not_listed texts code d Hin Hno) in Hrun.
  rewrite Hrun in H. clear Hrun.
  destruct (announce_others pushover notifySuccess d (checkAllDevicesAvailability texts)
              env w2 Hne) as (n & Hn & Hh & Ht & Hp & Hb & Hok).
  { intros c Hc. destruct (checkAll_subset_catalog texts c Hc) as [d' [Hd' _]].
    now exists d'. }
  cbv zeta in H.
  destruct (fst (announce pushover notifySuccess (OwnDevice d) false
                   (checkAllDevicesAvailability texts) env w2)) as [[]|e].
  - destruct H as (Hn' & Hh' & _). exists n, [].
    rewrite Hn', Hh', Hn, Hh, Hn2, Hh2, Hn1, Hh1. repeat split; trivial.
    + intros code' d' Hd' Hc'. now apply (Hb code').
  - destruct H as (_ & _ & m & Hn' & Hh' & Hmt & _). exists n, [m].
    rewrite Hn', Hh', Hn, Hh, Hn2, Hh2, Hn1, Hh1, <- !app_assoc.
    repeat split; trivial.
    + now destruct pushover.
    + intros code' d' Hd' Hc'. now apply (Hb code').
    + constructor; [|constructor]. rewrite Hmt. apply titles_differ.
    + intros Hp0. specialize (Hok Hp0). discriminate.
Qed.

Lemma other_devices_notified_once_witness :
  let env := mkEnv (fun _ => None) ["Steam Deck LCD 256GB ... Add to cart"]
               (fun _ _ => inl (mkError "pushover unreachable" ""))
               "2025-01-01T00:00:00.000Z" (fun _ => "") None None in
  let texts := ["Steam Deck LCD 256GB ... Add to cart"] in
  let d := mkDevice "Steam Deck OLED 512GB" 1 "magic" in
  let w' := snd (checkSteamDeckStock "oled-512" None false env start) in
  (In ("oled-512", d) DEVICES
   /\ scrape_outcome env = Ok texts
   /\ ~ In "oled-512" (checkAllDevicesAvailability texts)
   /\ checkAllDevicesAvailability texts <> [])
  /\ exists n,
       notify_calls w' = [n]
       /\ handed_over w' = []
       /\ msg_title n = OTHER_TITLE
       /\ msg_priority n = 0%Z
       /\ Substring "Steam Deck LCD 256GB" (msg_message n).
Proof.
  intros env texts d w'.
  assert (H1 : In ("oled-512", d) DEVICES) by (cbn; auto).
  assert (H2 : scrape_outcome env = Ok texts) by reflexivity.
  assert (H3 : ~ In "oled-512" (checkAllDevicesAvailability texts))
    by (cbn; intuition discriminate).
  assert (H4 : checkAllDevicesAvailability texts <> []) by discriminate.
  split; [auto|].
  destruct (other_devices_notified_once env start "oled-512" d None false texts
              H1 H2 H3 H4) as (n & rest & Hn & Hh & Ht & Hp & Hb & _ & Hrest).
  rewrite (Hrest eq_refl) in Hn. exists n. repeat split; trivial.
  apply (Hb "lcd-256" (mkDevice "Steam Deck LCD 256GB" 0 "pushover")); cbn; auto.
Defined.

(** A run on texts in which no catalog device is available. *)
Lemma no_stock_run (env : Env) (w : World) (code : string) (d : Device)
    (pushover : option Push) (flag : bool) (texts : list string) :
  In (code, d) DEVICES ->
  scrape_outcome env = Ok texts ->
  checkAllDevicesAvailability texts = [] ->
  let r := fst (checkSteamDeckStock code pushover flag env w) in
  let w' := snd (checkSteamDeckStock code pushover flag env w) in
  if flag then
    exists n rest,
      notify_calls w' = (notify_calls w ++ n :: rest)%list
      /\ handed_over w'
         = (handed_over w
            ++ match pushover with Some _ => n :: rest | None => [] end)%list
      /\ msg_title n = HEARTBEAT_TITLE
      /\ msg_priority n = 0%Z
      /\ Forall (fun m => msg_title m = ERROR_TITLE) rest
  else
    notify_calls w' = notify_calls w
    /\ handed_over w' = handed_over w
    /\ (rejects env Close = None -> r = Ok tt).
Proof.
  intros Hin Hs Hnone.
  destruct (checkSteamDeckStock_run code d pushover flag env w Hin)
    as (w1 & Hn1 & Hh1 & H).
  destruct (stockCheck_run pushover flag (OwnDevice d) env w1)
    as (w2 & Hn2 & Hh2 & Hrun).
  assert (Hno : ~ In code (checkAllDevicesAvailability texts))
    by (rewrite Hnone; intros []).
  rewrite Hs, (unavailable_when_not_listed texts code d Hin Hno), Hnone in Hrun.
  rewrite Hrun in H. clear Hrun. cbv zeta in *.
  destruct flag.
  - destruct (announce_heartbeat pushover d env w2) as (n & Hn & Hh & Ht & Hp & _).
    destruct (fst (announce pushover true (OwnDevice d) false [] env w2)) as [[]|e].
    + destruct H as (Hn' & Hh' & _). exists n, [].
      rewrite Hn', Hh', Hn, Hh, Hn2, Hh2, Hn1, Hh1. repeat split; trivial.
    + destruct H as (_ & _ & m & Hn' & Hh' & Hmt & _). exists n, [m].
      rewrite Hn', Hh', Hn, Hh, Hn2, Hh2, Hn1, Hh1, <- !app_assoc.
      repeat split; trivial.
      * now destruct pushover.
      * now repeat constructor.
  - destruct (announce_nothing pushover d env w2) as (Hr & Hn & Hh).
    rewrite Hr in H. destruct H as (Hn' & Hh' & Hok).
    rewrite Hn', Hh', Hn, Hh, Hn2, Hh2. auto.
Qed.

(** Claim C3: in every run where no catalog device is available, the
    function invokes the notifier for a heartbeat message of priority 0
    exactly when the notify-on-success flag is set; with the flag unset
    nothing is sent, the function completes normally and the script exits
    with code 0 (the browser closing as it should). *)
Theorem heartbeat_iff_requested (env : Env) (w : World) (code : string) (d : Device)
    (pushover : option Push) (flag : bool) (texts : list string) :
  In (code, d) DEVICES ->
  scrape_outcome env = Ok texts ->
  checkAllDevicesAvailability texts = [] ->
  let r := fst (checkSteamDeckStock code pushover flag env w) in
  let w' := snd (checkSteamDeckStock code pushover flag env w) in
  (exists sent,
     notify_calls w' = (notify_calls w ++ sent)%list
     /\ handed_over w'
        = (handed_over w ++ match pushover with Some _ => sent | None => [] end)%list
     /\ ((exists n, In n sent /\ msg_title n = HEARTBEAT_TITLE /\ msg_priority n = 0%Z)
         <-> flag = true)
     /\ (flag = false -> sent = []))
  /\ (flag = false -> rejects env Close = None -> r = Ok tt)
  /\ (forall argv w0,
        device argv = code ->
        Restock.notifySuccess argv = false ->
        listDevices argv = false ->
        rejects env Close = None ->
        fst (main argv env w0) = 0%Z
        /\ notify_calls (snd (main argv env w0)) = notify_calls w0
        /\ handed_over (snd (main argv env w0)) = handed_over w0).
Proof.
  intros Hin Hs Hnone. cbv zeta.
  pose proof (no_stock_run env w code d pushover flag texts Hin Hs Hnone) as H.
  cbv zeta in H. split; [|split].
  - destruct flag.
    + destruct H as (n & rest & Hn & Hh & Ht & Hp & _). exists (n :: rest).
      repeat split; trivial; try discriminate.
      intros _. exists n. repeat split; trivial. now left.
    + destruct H as (Hn & Hh & _). exists [].
      rewrite Hn, Hh. repeat split.
      * now rewrite app_nil_r.
      * destruct pushover; now rewrite app_nil_r.
      * intros [n [[] _]].
      * discriminate.
  - intros -> Hc. now apply H.
  - intros argv w0 Hd Hf Hl Hc.
    destruct (main_run argv env w0 Hl) as (p & w1 & Hn1 & Hh1 & Hm).
    rewrite Hd, Hf in Hm. cbv zeta in Hm.
    pose proof (no_stock_run env w1 code d p false texts Hin Hs Hnone) as H'.
    cbv zeta in H'. destruct H' as (Hn & Hh & Hok).
    rewrite (Hok Hc) in Hm. destruct Hm as (Hm0 & Hmn & Hmh).
    rewrite Hmn, Hmh, Hn, Hh. auto.
Qed.

Lemma heartbeat_iff_requested_witness :
  let env := mkEnv (fun _ => None) ["Steam Deck LCD 256GB ... Out of stock"]
               (fun _ _ => inr (mkResult 1 "accepted"))
               "2025-01-01T00:00:00.000Z" (fun _ => "") None None in
  let texts := ["Steam Deck LCD 256GB ... Out of stock"] in
  let d := mkDevice "Steam Deck OLED 512GB" 1 "magic" in
  let argv := mkArgv "oled-512" None None false false in
  (In ("oled-512", d) DEVICES
   /\ scrape_outcome env = Ok texts
   /\ checkAllDevicesAvailability texts = []
   /\ rejects env Close = None)
  /\ fst (checkSteamDeckStock "oled-512" None false env start) = Ok tt
  /\ fst (main argv env start) = 0%Z
  /\ notify_calls (snd (main argv env start)) = []
  /\ handed_over (snd (main argv env start)) = [].
Proof.
  intros env texts d argv.
  assert (H1 : In ("oled-512", d) DEVICES) by (cbn; auto).
  assert (H2 : scrape_outcome env = Ok texts) by reflexivity.
  assert (H3 : checkAllDevicesAvailability texts = []) by reflexivity.
  assert (H4 : rejects env Close = None) by reflexivity.
  split; [auto|].
  destruct (heartbeat_iff_requested env start "oled-512" d None false texts H1 H2 H3)
    as (_ & Hok & Hmain).
  split; [exact (Hok eq_refl H4)|].
  exact (Hmain argv start eq_refl eq_refl eq_refl H4).
Defined.

(** A run whose browser part throws. *)
Lemma scrape_failure_run (env : Env) (w : World) (code : string) (d : Device)
    (pushover : option Push) (flag : bool) (e : JsError) :
  In (code, d) DEVICES ->
  scrape_outcome env = Throw e ->
  let r := fst (checkSteamDeckStock code pushover flag env w) in
  let w' := snd (checkSteamDeckStock code pushover flag env w) in
  (exists e', r = Throw e')
  /\ (rejects env Close = None -> r = Throw e)
  /\ exists n,
       notify_calls w' = (notify_calls w ++ [n])%list
       /\ handed_over w'
          = (handed_over w ++ match pushover with Some _ => [n] | None => [] end)%list
       /\ msg_title n = ERROR_TITLE
       /\ msg_priority n = 1%Z
       /\ Substring (err_message e) (msg_message n)
       /\ forall client failure,
            pushover = Some client ->
            pushover_reply env (List.length (handed_over w)) n = inl failure ->
            In (Stderr, [Txt "❌ Failed to send error notification:";
                         Txt (err_message failure)]) (console w').
Proof.
  intros Hin Hs.
  destruct (checkSteamDeckStock_run code d pushover flag env w Hin)
    as (w1 & Hn1 & Hh1 & H).
  destruct (stockCheck_run pushover flag (OwnDevice d) env w1)
    as (w2 & Hn2 & Hh2 & Hrun).
  rewrite Hs in Hrun. rewrite Hrun in H. clear Hrun. cbv zeta in *.
  cbn [fst snd] in H. rewrite Hn2, Hh2, Hn1, Hh1 in H. exact H.
Qed.

(** Claim C5: in every run whose scraper step throws, the function invokes
    the notifier once, for an error message of priority 1 that quotes the
    scraper's error, and then throws that same error again (the browser
    closing as it should), so the script exits with code 1; when the delivery
    of the error message fails, the failure is written to the console and the
    error thrown is still the scraper's. *)
Theorem scraper_error_reported_then_rethrown (env : Env) (w : World) (code : string)
    (d : Device) (pushover : option Push) (flag : bool) (e : JsError) :
  In (code, d) DEVICES ->
  scrape_outcome env = Throw e ->
  let r := fst (checkSteamDeckStock code pushover flag env w) in
  let w' := snd (checkSteamDeckStock code pushover flag env w) in
  (rejects env Close = None -> r = Throw e)
  /\ (exists n,
        notify_calls w' = (notify_calls w ++ [n])%list
        /\ handed_over w'
           = (handed_over w ++ match pushover with Some _ => [n] | None => [] end)%list
        /\ msg_title n = ERROR_TITLE
        /\ msg_priority n = 1%Z
        /\ Substring (err_message e) (msg_message n)
        /\ forall client failure,
             pushover = Some client ->
             pushover_reply env (List.length (handed_over w)) n = inl failure ->
             In (Stderr, [Txt "❌ Failed to send error notification:";
                          Txt (err_message failure)]) (console w'))
  /\ (forall argv w0,
        device argv = code ->
        listDevices argv = false ->
        fst (main argv env w0) = 1%Z
        /\ exists n rest,
             notify_calls (snd (main argv env w0)) = (notify_calls w0 ++ n :: rest)%list
             /\ msg_title n = ERROR_TITLE
             /\ Forall (fun m => msg_title m = CRITICAL_TITLE) rest).
Proof.
  intros Hin Hs. cbv zeta.
  destruct (scrape_failure_run env w code d pushover flag e Hin Hs) as (_ & Hr & Hn).
  split; [exact Hr|]. split; [exact Hn|].
  intros argv w0 Hd Hl.
  destruct (main_run argv env w0 Hl) as (p & w1 & Hn1 & _ & Hm).
  rewrite Hd in Hm. cbv zeta in Hm.
  destruct (scrape_failure_run env w1 code d p (Restock.notifySuccess argv) e Hin Hs)
    as ([e' He'] & _ & n & Hcalls & _ & Ht & _).
  rewrite He' in Hm. destruct Hm as (Hexit & rest & Hmain & Hrest).
  split; [exact Hexit|]. exists n, rest.
  rewrite Hmain, Hcalls, Hn1, <- app_assoc. repeat split; trivial.
  eapply Forall_impl; [|exact Hrest]. now intros m [Hm _].
Qed.

Lemma scraper_error_reported_then_rethrown_witness :
  let timeout := mkError "Navigation timeout of 30000 ms exceeded" "" in
  let outage := mkError "connect ETIMEDOUT" "" in
  let env := mkEnv (fun call => match call with Goto _ => Some timeout | _ => None end)
               [] (fun _ _ => inl outage) "2025-01-01T00:00:00.000Z" (fun _ => "")
               (Some "user") (Some "token") in
  let d := mkDevice "Steam Deck OLED 512GB" 1 "magic" in
  let client := mkPush "user" "token" in
  let argv := mkArgv "oled-512" None None false false in
  (In ("oled-512", d) DEVICES
   /\ scrape_outcome env = Throw timeout
   /\ rejects env Close = None)
  /\ fst (checkSteamDeckStock "oled-512" (Some client) false env start) = Throw timeout
  /\ In (Stderr, [Txt "❌ Failed to send error notification:"; Txt "connect ETIMEDOUT"])
       (console (snd (checkSteamDeckStock "oled-512" (Some client) false env start)))
  /\ fst (main argv env start) = 1%Z.
Proof.
  intros timeout outage env d client argv.
  assert (H1 : In ("oled-512", d) DEVICES) by (cbn; auto).
  assert (H2 : scrape_outcome env = Throw timeout) by reflexivity.
  assert (H3 : rejects env Close = None) by reflexivity.
  split; [auto|].
  destruct (scraper_error_reported_then_rethrown env start "oled-512" d (Some client)
              false timeout H1 H2) as (Hr & (n & _ & _ & _ & _ & _ & Hlog) & Hmain).
  split; [exact (Hr H3)|]. split.
  - exact (Hlog client outage eq_refl eq_refl).
  - exact (proj1 (Hmain argv start eq_refl eq_refl)).
Defined.

(** A key that [DEVICES[key]] does not find is rejected before anything else
    happens. *)
Lemma undefined_code_rejected (code : string) (pushover : option Push) (flag : bool)
    (env : Env) (w : World) :
  DEVICES_get code = None ->
  let run := checkSteamDeckStock code pushover flag env w in
  (exists e, fst run = Throw e /\ Substring "Unknown device code" (err_message e))
  /\ browser_calls (snd run) = browser_calls w
  /\ notify_calls (snd run) = notify_calls w
  /\ handed_over (snd run) = handed_over w
  /\ console (snd run) = console w.
Proof.
  intros Hget. unfold checkSteamDeckStock. rewrite Hget. run. cbn [err_message].
  repeat split; trivial. eexists. split; [reflexivity|].
  exists "", (": " ++ code ++ ". Available: " ++ join ", " (map fst DEVICES)).
  reflexivity.
Qed.

(** *** The browser calls of a run *)

Lemma evaluateAll_calls (containers : list string) :
  forall index acc env w,
    exists rest,
      browser_calls (snd (evaluateAll index containers acc env w))
      = (browser_calls w ++ rest)%list.
Proof.
  induction containers as [|text rest IH]; intros index acc env w.
  - exists []. cbn. now rewrite app_nil_r.
  - cbn [evaluateAll]. run. destruct (rejects env (Evaluate index)).
    + now exists [Evaluate index].
    + match goal with
      | |- context [evaluateAll ?i ?c ?a env ?w0] => destruct (IH i a env w0) as [more H]
      end.
      cbn [browser_calls] in H. exists (Evaluate index :: more).
      now rewrite H, <- app_assoc.
Qed.

(** The browser part begins with [puppeteer.launch]. *)
Lemma scrape_calls (env : Env) (w : World) :
  exists rest,
    browser_calls (snd (scrapeCartButtonTexts env w))
    = (browser_calls w ++ Launch :: rest)%list.
Proof.
  unfold scrapeCartButtonTexts. run.
  repeat (run_step;
          [cbn [snd browser_calls]; rewrite <- ?app_assoc; cbn [app]; eexists; reflexivity|]).
  cbn [fst snd console browser_calls handed_over notify_calls browser].
  match goal with
  | |- context [evaluateAll ?i ?c ?a env ?w0] =>
      destruct (evaluateAll_calls c i a env w0) as [more H]
  end.
  cbn [browser_calls] in H. rewrite H, <- !app_assoc. cbn [app]. eexists. reflexivity.
Qed.

Lemma deviceNames_world (codes : list string) (env : Env) (w : World) :
  snd (deviceNames codes env w) = w.
Proof.
  induction codes as [|code codes IH]; [reflexivity|].
  cbn [deviceNames]. destruct (DEVICES_get code); run; [|reflexivity].
  destruct (deviceNames codes env w) as [[names|e] w']; cbn [snd] in *; exact IH.
Qed.

Ltac notify_step :=
  match goal with
  | |- context [sendNotification ?p ?m ?t ?pr ?s ?env ?w0] =>
      let H := fresh "H" in
      pose proof (sendNotification_run p m t pr s env w0) as H;
      cbv zeta in H; destruct H as (_ & _ & _ & H & _);
      destruct (sendNotification p m t pr s env w0) as [[]]
  end.

(** Neither the decision nor the [catch] block calls the browser. *)
Lemma announce_calls (pushover : option Push) (flag : bool) (device : Member)
    (isDeviceAvailable : bool) (available : list string) (env : Env) (w : World) :
  browser_calls (snd (announce pushover flag device isDeviceAvailable available env w))
  = browser_calls w.
Proof.
  unfold announce. destruct isDeviceAvailable.
  - destruct (get_name device); cbv [bind console_log ret throw new_Error];
      [notify_step; exact H | reflexivity].
  - destruct (0 <? Datatypes.length available)%nat; [|destruct flag].
    + cbv [bind console_log ret].
      match goal with
      | |- context [deviceNames ?c env ?w0] =>
          pose proof (deviceNames_world c env w0) as Hw;
          destruct (deviceNames c env w0) as [[names|e] w1]
      end; cbn [snd] in Hw; subst w1; [notify_step; exact H | reflexivity].
    + cbv [bind console_log ret ask]. notify_step; exact H.
    + reflexivity.
Qed.

Lemma reportError_calls (pushover : option Push) (device : Member) (error : JsError)
    (env : Env) (w : World) :
  browser_calls (snd (reportError pushover device error env w)) = browser_calls w.
Proof.
  unfold reportError. cbv [bind try_catch ask console_error console_log throw].
  notify_step; exact H.
Qed.

Lemma stockCheck_calls (pushover : option Push) (flag : bool) (device : Member)
    (env : Env) (w : World) :
  exists rest,
    browser_calls (snd (stockCheck pushover flag device env w))
    = (browser_calls w ++ Launch :: rest)%list.
Proof.
  unfold stockCheck. cbv [bind console_log].
  match goal with
  | |- context [scrapeCartButtonTexts env ?w0] =>
      destruct (scrape_calls env w0) as [rest H];
      destruct (scrapeCartButtonTexts env w0) as [[texts|e] w1]
  end; cbn [snd browser_calls] in H; exists rest; [|exact H].
  now rewrite announce_calls.
Qed.

(** Claim C4, at the device code "constructor": the code is not a key of the
    catalog, yet [DEVICES["constructor"]] is the inherited [Object] function,
    which passes the [!device] test.  In every environment the run goes on to
    [puppeteer.launch]; in a quiet one it completes without any error. *)
Theorem inherited_key_passes_the_guard :
  ~ In "constructor" (map fst DEVICES)
  /\ DEVICES_get "constructor" = Some (ProtoFunction "Object")
  /\ (forall pushover flag env w,
        exists rest,
          browser_calls (snd (checkSteamDeckStock "constructor" pushover flag env w))
          = (browser_calls w ++ Launch :: rest)%list)
  /\ (let env := mkEnv (fun _ => None) [] (fun _ _ => inr (mkResult 1 "accepted"))
                   "2025-01-01T00:00:00.000Z" (fun _ => "") None None in
      checkSteamDeckStock "constructor" None false env start
      = (Ok tt,
         mkWorld
           [(Stdout, [Txt "🔍 Monitoring Object..."]);
            (Stdout, [Txt "Starting Steam Deck stock check..."]);
            (Stdout, [Txt "Navigating to Steam Deck refurbished page..."]);
            (Stdout, [Txt "Checking cart buttons..."]);
            (Stdout, [Txt "Found cart buttons:"; Num 0]);
            (Stdout, [CartButtonTexts []]);
            (Stdout, [Txt "Object Available: false"]);
            (Stdout, [Txt "All available devices: none"]);
            (Stdout, [Txt "❌ No Object in stock."])]
           [Launch; NewPage; SetUserAgent USER_AGENT; Goto STORE_URL;
            Focus "div.CartBtn"; QueryAll "div.CartBtn"; Close]
           [] [] (Some TheBrowser))).
Proof.
  split; [cbn; intuition discriminate|]. split; [reflexivity|]. split; [|reflexivity].
  intros pushover flag env w. unfold checkSteamDeckStock.
  change (DEVICES_get "constructor") with (Some (ProtoFunction "Object")).
  cbv [bind set_browser console_log try_finally try_catch get_browser puppeteer ret].
  cbn [console browser_calls handed_over notify_calls browser].
  match goal with
  | |- context [stockCheck ?p ?ns ?m env ?w0] =>
      destruct (stockCheck_calls p ns m env w0) as [rest H];
      destruct (stockCheck p ns m env w0) as [[[]|e] w1]
  end; cbn [snd browser_calls] in H.
  - destruct (browser w1); [destruct (rejects env Close)|]; cbn [snd browser_calls];
      rewrite H, <- ?app_assoc; cbn [app]; eexists; reflexivity.
  - pose proof (reportError_calls pushover (ProtoFunction "Object") e env w1) as H'.
    destruct (reportError pushover (ProtoFunction "Object") e env w1) as [r2 w2].
    cbn [snd] in H'.
    destruct (browser w2); [destruct (rejects env Close)|]; cbn [snd browser_calls];
      rewrite H', H, <- ?app_assoc; cbn [app]; eexists; reflexivity.
Qed.

(** Claim C6: without a Pushover client the notifier writes one line to the
    console and returns normally, whatever the message, title, priority and
    sound: nothing is handed to a client, no browser call is made, nothing is
    thrown.  The same holds for the single-device notifier. *)
Theorem notify_without_client_only_logs (message : string) (title : option string)
    (priority : option Z) (sound : option string) (env : Env) (w : World) :
  let title' := default "Steam Deck Restock Alert" title in
  let line := (Stdout, [Txt ("📱 Would send notification: " ++ title' ++ " - " ++ message)]) in
  let call := mkMessage message title' (default 0%Z priority) (default "pushover" sound) in
  sendNotification None message title priority sound env w
  = (Ok None,
     mkWorld (console w ++ [line]) (browser_calls w) (handed_over w)
       (notify_calls w ++ [call]) (browser w))
  /\ SingleDevice.sendNotification None message title priority env w
     = (Ok None,
        mkWorld (console w ++ [line]) (browser_calls w) (handed_over w)
          (notify_calls w) (browser w)).
Proof.
  cbv zeta. split; reflexivity.
Qed.

End Runs.

(** ** Matching policies *)

Module Policies.

Import Js JsFacts.

(** Claim C7, at the texts of the scenario: the search terms of "lcd-512"
    ("Steam Deck 512 GB", "Add to cart") occur in the text of the OLED 512 GB
    card as well, so the search-term checker reports "lcd-512" next to
    "oled-512". *)
Theorem lcd_512_terms_match_oled_512_text :
  let texts := ["Steam Deck 512 GB OLED ... Add to cart"] in
  map (fun entry => (fst entry, SearchTerms.checkDeviceAvailability texts (snd entry)))
    SearchTerms.DEVICES
  = [("oled-512", true); ("oled-1tb", false); ("lcd-256", false); ("lcd-512", true)].
Proof. reflexivity. Qed.

Lemma searchTerms_iff (texts : list string) (d : SearchTerms.Device) :
  SearchTerms.checkDeviceAvailability texts d = true
  <-> exists text,
        In text texts
        /\ Forall (fun term => Substring term text) (SearchTerms.searchTerms d).
Proof.
  unfold SearchTerms.checkDeviceAvailability. rewrite existsb_exists.
  split; intros [text [Hin H]]; exists text; split; trivial.
  - rewrite forallb_forall in H. apply Forall_forall.
    intros term Ht. now apply includes_iff, H.
  - rewrite Forall_forall in H. apply forallb_forall.
    intros term Ht. now apply includes_iff, H.
Qed.

(** Claim C8 fails: neither generation can be configured, device by device,
    with the other policy.  No device record of the newest generation is
    classified by the all-terms policy of this specification, and no device
    record of the search-term generation is classified by the
    not-out-of-stock policy of that one. *)
Lemma no_record_realises_the_other_policy :
  let all_terms := Policy.mkSpec "oled-512" "Steam Deck OLED 512GB"
                     (Policy.AllTermsPresent ["Steam Deck 512 GB OLED"; "Add to cart"])
                     1 "magic" in
  let not_out := Policy.mkSpec "oled-512" "Steam Deck OLED 512GB"
                   Policy.PresentNotOutOfStock 1 "magic" in
  (~ exists d : Restock.Device,
       forall texts,
         Restock.checkDeviceAvailability texts (Restock.OwnDevice d) = true
         <-> Policy.available all_terms texts)
  /\ (~ exists d : SearchTerms.Device,
        forall texts,
          SearchTerms.checkDeviceAvailability texts d = true
          <-> Policy.available not_out texts).
Proof.
  cbv zeta. split.
  - intros [d H].
    specialize (H ["Steam Deck 512 GB OLED Add to cart Out of stock"]).
    assert (Hc : Restock.checkDeviceAvailability
                   ["Steam Deck 512 GB OLED Add to cart Out of stock"]
                   (Restock.OwnDevice d) = true).
    { apply H. eexists. split; [now left|].
      unfold Policy.satisfies. cbn [Policy.policy].
      repeat constructor; now apply includes_iff. }
    unfold Restock.checkDeviceAvailability in Hc. cbn [existsb] in Hc.
    rewrite orb_false_r in Hc. apply andb_true_iff in Hc. destruct Hc as [_ Hc].
    vm_compute in Hc. discriminate.
  - intros [d H].
    assert (Hterms : Forall (fun term => Substring term "Steam Deck OLED 512GB")
                       (SearchTerms.searchTerms d)).
    { assert (Hc : SearchTerms.checkDeviceAvailability ["Steam Deck OLED 512GB"] d = true).
      { apply H. eexists. split; [now left|].
        unfold Policy.satisfies. cbn [Policy.policy Policy.displayName]. split.
        - apply Substring_refl.
        - now apply includes_false_iff. }
      apply searchTerms_iff in Hc. now destruct Hc as [text [[<-|[]] Hc]]. }
    assert (Hc : SearchTerms.checkDeviceAvailability
                   ["Steam Deck OLED 512GB" ++ " Out of stock"] d = true).
    { apply searchTerms_iff. eexists. split; [now left|].
      eapply Forall_impl; [|exact Hterms].
      intros term Ht. now apply Substring_append_r. }
    apply H in Hc. destruct Hc as [text [[<-|[]] Hsat]].
    unfold Policy.satisfies in Hsat. cbn [Policy.policy] in Hsat.
    destruct Hsat as [_ Hout]. apply includes_false_iff in Hout. discriminate.
Qed.

(** Claim C8 as amended: each generation applies one policy to all its
    devices.  The newest classifies every device by policy (b) on its display
    name; the search-term generation classifies every device by policy (a) on
    its search terms. *)
Theorem one_policy_per_generation (texts : list string) (code : string) :
  (forall d,
     Restock.checkDeviceAvailability texts (Restock.OwnDevice d) = true
     <-> Policy.available
           (Policy.mkSpec code (Restock.name d) Policy.PresentNotOutOfStock
              (Restock.priority d) (Restock.sound d))
           texts)
  /\ (forall d,
        SearchTerms.checkDeviceAvailability texts d = true
        <-> Policy.available
              (Policy.mkSpec code (SearchTerms.name d)
                 (Policy.AllTermsPresent (SearchTerms.searchTerms d))
                 (SearchTerms.priority d) (SearchTerms.sound d))
              texts).
Proof.
  split.
  - intros d. apply Classification.checkDevice_iff.
  - intros d. apply searchTerms_iff.
Qed.

End Policies.

(** ** Notifications of a run, whatever the device and the path *)

Module Traces.

Import Js JsFacts Restock Classification Runs.

(** What a client receives: every message when there is one, nothing when
    there is none. *)
Local Abbreviation received pushover sent :=
  (match pushover with Some _ => sent | None => @nil PushoverMessage end).

Ltac notify_trace :=
  match goal with
  | |- context [sendNotification ?p ?m ?t ?pr ?s ?env ?w0] =>
      let H := fresh "H" in
      let Hn := fresh "Hn" in
      let Hh := fresh "Hh" in
      let Hb := fresh "Hb" in
      pose proof (sendNotification_run p m t pr s env w0) as H;
      cbv zeta in H; destruct H as (Hn & Hh & Hb & _ & _);
      destruct (sendNotification p m t pr s env w0) as [[] ?];
      cbn [fst snd notify_calls handed_over browser console browser_calls] in *
  end.

Lemma announce_trace (pushover : option Push) (flag : bool) (device : Member)
    (isDeviceAvailable : bool) (available : list string) (env : Env) (w : World) :
  let w' := snd (announce pushover flag device isDeviceAvailable available env w) in
  browser w' = browser w
  /\ exists sent,
       notify_calls w' = (notify_calls w ++ sent)%list
       /\ handed_over w' = (handed_over w ++ received pushover sent)%list
       /\ (List.length sent <= 1)%nat.
Proof.
  cbv zeta. unfold announce. destruct isDeviceAvailable.
  - destruct (get_name device); cbv [bind console_log ret throw new_Error].
    + notify_trace; (split; [assumption|]); eexists; (split; [eassumption|]);
        (split; [destruct pushover; assumption | cbn; lia]).
    + cbn. split; [reflexivity|]. exists [].
      destruct pushover; rewrite !app_nil_r; auto.
  - destruct (0 <? Datatypes.length available)%nat; [|destruct flag].
    + cbv [bind console_log ret].
      match goal with
      | |- context [deviceNames ?c env ?w0] =>
          pose proof (deviceNames_world c env w0) as Hw;
          destruct (deviceNames c env w0) as [[names|e] w1]
      end; cbn [snd] in Hw; subst w1.
      * notify_trace; (split; [assumption|]); eexists; (split; [eassumption|]);
          (split; [destruct pushover; assumption | cbn; lia]).
      * cbn. split; [reflexivity|]. exists [].
        destruct pushover; rewrite !app_nil_r; auto.
    + cbv [bind console_log ret ask].
      notify_trace; (split; [assumption|]); eexists; (split; [eassumption|]);
        (split; [destruct pushover; assumption | cbn; lia]).
    + cbn. split; [reflexivity|]. exists [].
      destruct pushover; rewrite !app_nil_r; auto.
Qed.

Lemma reportError_trace (pushover : option Push) (device : Member) (error : JsError)
    (env : Env) (w : World) :
  let w' := snd (reportError pushover device error env w) in
  browser w' = browser w
  /\ exists sent,
       notify_calls w' = (notify_calls w ++ sent)%list
       /\ handed_over w' = (handed_over w ++ received pushover sent)%list
       /\ (List.length sent <= 1)%nat.
Proof.
  cbv zeta. unfold reportError.
  cbv [bind try_catch ask console_error console_log throw].
  notify_trace; (split; [assumption|]); eexists; (split; [eassumption|]);
    (split; [destruct pushover; assumption | cbn; lia]).
Qed.

Lemma stockCheck_trace (pushover : option Push) (flag : bool) (device : Member)
    (env : Env) (w : World) :
  let w' := snd (stockCheck pushover flag device env w) in
  exists sent,
    notify_calls w' = (notify_calls w ++ sent)%list
    /\ handed_over w' = (handed_over w ++ received pushover sent)%list
    /\ (List.length sent <= 1)%nat.
Proof.
  cbv zeta.
  destruct (stockCheck_run pushover flag device env w) as (w1 & Hn & Hh & ->).
  destruct (scrape_outcome env) as [texts|e].
  - destruct (announce_trace pushover flag device
                (checkDeviceAvailability texts device)
                (checkAllDevicesAvailability texts) env w1)
      as (_ & sent & Hn' & Hh' & Hl).
    exists sent. now rewrite Hn', Hh', Hn, Hh.
  - exists []. cbn [snd]. rewrite Hn, Hh.
    destruct pushover; rewrite !app_nil_r; auto.
Qed.

(** *** The browser session *)

Lemma evaluateAll_session (containers : list string) :
  forall index acc env w,
    browser (snd (evaluateAll index containers acc env w)) = browser w
    /\ exists rest,
         browser_calls (snd (evaluateAll index containers acc env w))
         = (browser_calls w ++ rest)%list
         /\ ~ In Close rest /\ ~ In Launch rest.
Proof.
  induction containers as [|text rest IH]; intros index acc env w.
  - split; [reflexivity|]. exists []. cbn. rewrite app_nil_r. auto.
  - cbn [evaluateAll]. run. destruct (rejects env (Evaluate index)).
    + split; [reflexivity|]. exists [Evaluate index]. cbn. intuition discriminate.
    + match goal with
      | |- context [evaluateAll ?i ?c ?a env ?w0] =>
          destruct (IH i a env w0) as (Hb & more & Hc & Hclose & Hlaunch)
      end.
      cbn [browser browser_calls] in Hb, Hc. split; [exact Hb|].
      exists (Evaluate index :: more). rewrite Hc, <- app_assoc.
      cbn. intuition discriminate.
Qed.

(** A rejected launch leaves no browser; otherwise the binding is set, and
    what follows the launch contains neither a second launch nor a close. *)
Lemma scrape_session (env : Env) (w : World) :
  let w' := snd (scrapeCartButtonTexts env w) in
  match rejects env Launch with
  | Some _ =>
      browser w' = browser w /\ browser_calls w' = (browser_calls w ++ [Launch])%list
  | None =>
      browser w' = Some TheBrowser
      /\ exists middle,
           browser_calls w' = (browser_calls w ++ Launch :: middle)%list
           /\ ~ In Close middle /\ ~ In Launch middle
  end.
Proof.
  cbv zeta. unfold scrapeCartButtonTexts. run.
  destruct (rejects env Launch); [cbn; auto|].
  repeat (run_step;
          [cbn [snd browser browser_calls]; split; [reflexivity|];
           rewrite <- ?app_assoc; cbn [app]; eexists; split; [reflexivity|];
           cbn; intuition discriminate|]).
  cbn [fst snd console browser_calls handed_over notify_calls browser].
  match goal with
  | |- context [evaluateAll ?i ?c ?a env ?w0] =>
      destruct (evaluateAll_session c i a env w0) as (Hb & more & Hc & Hclose & Hlaunch)
  end.
  cbn [browser browser_calls] in Hb, Hc. split; [exact Hb|].
  rewrite Hc, <- !app_assoc. cbn [app]. eexists. split; [reflexivity|].
  cbn. intuition discriminate.
Qed.

Lemma stockCheck_session (pushover : option Push) (flag : bool) (device : Member)
    (env : Env) (w : World) :
  let w' := snd (stockCheck pushover flag device env w) in
  match rejects env Launch with
  | Some _ =>
      browser w' = browser w /\ browser_calls w' = (browser_calls w ++ [Launch])%list
  | None =>
      browser w' = Some TheBrowser
      /\ exists middle,
           browser_calls w' = (browser_calls w ++ Launch :: middle)%list
           /\ ~ In Close middle /\ ~ In Launch middle
  end.
Proof.
  cbv zeta. unfold stockCheck. cbv [bind console_log].
  match goal with
  | |- context [scrapeCartButtonTexts env ?w0] =>
      pose proof (scrape_session env w0) as H;
      destruct (scrapeCartButtonTexts env w0) as [[texts|e] w1]
  end; cbv zeta in H; cbn [snd browser browser_calls] in H;
    cbn [fst snd console browser_calls handed_over notify_calls browser]; [|exact H].
  match goal with
  | |- context [announce ?p ?f ?m ?a ?l env ?w0] =>
      destruct (announce_trace p f m a l env w0) as (Hb & _);
      pose proof (announce_calls p f m a l env w0) as Hc
  end.
  cbn [browser browser_calls] in Hb, Hc. rewrite Hb, Hc. exact H.
Qed.

(** Every puppeteer call of a run of the function: none when the device
    lookup is undefined; only the launch when the launch rejects; otherwise
    the launch first, the close last, and neither of them in between. *)
Lemma checkSteamDeckStock_session (code : string) (pushover : option Push) (flag : bool)
    (env : Env) (w : World) :
  let w' := snd (checkSteamDeckStock code pushover flag env w) in
  match DEVICES_get code, rejects env Launch with
  | None, _ => browser_calls w' = browser_calls w
  | Some _, Some _ => browser_calls w' = (browser_calls w ++ [Launch])%list
  | Some _, None =>
      exists middle,
        browser_calls w' = (browser_calls w ++ Launch :: middle ++ [Close])%list
        /\ ~ In Close middle /\ ~ In Launch middle
  end.
Proof.
  cbv zeta. unfold checkSteamDeckStock. destruct (DEVICES_get code) as [device|].
  2:{ destruct (rejects env Launch); reflexivity. }
  cbv [bind set_browser console_log try_finally try_catch get_browser puppeteer ret].
  cbn [console browser_calls handed_over notify_calls browser].
  match goal with
  | |- context [stockCheck ?p ?ns ?m env ?w0] =>
      pose proof (stockCheck_session p ns m env w0) as H;
      destruct (stockCheck p ns m env w0) as [[[]|e] w1]
  end; cbv zeta in H; cbn [snd browser browser_calls] in H.
  - destruct (rejects env Launch) as [e|].
    + destruct H as (Hb & Hc). rewrite Hb. cbn [snd]. exact Hc.
    + destruct H as (Hb & middle & Hc & Hm). rewrite Hb.
      exists middle. split; [|exact Hm].
      destruct (rejects env Close); cbn [snd browser_calls];
        now rewrite Hc, <- app_assoc.
  - destruct (reportError_trace pushover device e env w1) as (Hb' & _).
    pose proof (reportError_calls pushover device e env w1) as Hc'.
    destruct (reportError pushover device e env w1) as [r2 w2].
    cbn [snd] in Hb', Hc'. rewrite Hb'.
    destruct (rejects env Launch) as [e0|].
    + destruct H as (Hb & Hc). rewrite Hb. cbn [snd]. now rewrite Hc'.
    + destruct H as (Hb & middle & Hc & Hm). rewrite Hb.
      exists middle. split; [|exact Hm].
      destruct (rejects env Close); cbn [snd browser_calls];
        now rewrite Hc', Hc, <- app_assoc.
Qed.

Lemma checkSteamDeckStock_trace (code : string) (pushover : option Push) (flag : bool)
    (env : Env) (w : World) :
  let w' := snd (checkSteamDeckStock code pushover flag env w) in
  exists sent,
    notify_calls w' = (notify_calls w ++ sent)%list
    /\ handed_over w' = (handed_over w ++ received pushover sent)%list
    /\ (List.length sent <= 2)%nat.
Proof.
  cbv zeta. unfold checkSteamDeckStock. destruct (DEVICES_get code) as [device|].
  2:{ exists []. cbn. destruct pushover; rewrite !app_nil_r; auto. }
  cbv [bind set_browser console_log try_finally try_catch get_browser puppeteer ret].
  cbn [console browser_calls handed_over notify_calls browser].
  match goal with
  | |- context [stockCheck ?p ?ns ?m env ?w0] =>
      destruct (stockCheck_trace p ns m env w0) as (sent & Hn & Hh & Hl);
      destruct (stockCheck p ns m env w0) as [[[]|e] w1]
  end; cbn [snd notify_calls handed_over] in Hn, Hh.
  - exists sent.
    destruct (browser w1); [destruct (rejects env Close)|];
      cbn [snd notify_calls handed_over]; repeat split; trivial; lia.
  - destruct (reportError_trace pushover device e env w1)
      as (_ & more & Hn' & Hh' & Hl').
    destruct (reportError pushover device e env w1) as [r2 w2].
    cbn [snd] in Hn', Hh'. exists (sent ++ more)%list.
    assert (Hn2 : notify_calls w2 = (notify_calls w ++ sent ++ more)%list)
      by now rewrite Hn', Hn, app_assoc.
    assert (Hh2 : handed_over w2 = (handed_over w ++ received pushover (sent ++ more))%list).
    { rewrite Hh', Hh, <- app_assoc. now destruct pushover. }
    assert (Hl2 : (List.length (sent ++ more) <= 2)%nat)
      by (rewrite length_app; lia).
    destruct (browser w2); [destruct (rejects env Close)|];
      cbn [snd notify_calls handed_over]; auto.
Qed.

Lemma reportCritical_trace (pushover : option Push) (error : JsError) (env : Env)
    (w : World) :
  let w' := snd (reportCritical pushover error env w) in
  browser_calls w' = browser_calls w
  /\ exists sent,
       notify_calls w' = (notify_calls w ++ sent)%list
       /\ handed_over w' = (handed_over w ++ received pushover sent)%list
       /\ (List.length sent <= 1)%nat.
Proof.
  cbv zeta. unfold reportCritical. destruct pushover as [client|].
  - cbv [bind try_catch ask console_error console_log].
    match goal with
    | |- context [sendNotification ?p ?m ?t ?pr ?s env ?w0] =>
        pose proof (sendNotification_run p m t pr s env w0) as H;
        cbv zeta in H; destruct H as (Hn & Hh & _ & Hc & _);
        destruct (sendNotification p m t pr s env w0) as [[] ?]
    end; cbn [fst snd notify_calls handed_over browser_calls console] in *;
      (split; [assumption|]); eexists; (split; [eassumption|]);
      (split; [eassumption | cbn; lia]).
  - cbn. split; [reflexivity|]. exists []. rewrite !app_nil_r. auto.
Qed.

(** The client the script builds from the command line and the environment. *)
Local Abbreviation client_of argv env :=
  (let userKey := or_else (pushoverUser argv) (PUSHOVER_USER env) in
   let apiToken := or_else (pushoverToken argv) (PUSHOVER_TOKEN env) in
   if truthy userKey && truthy apiToken
   then Some (mkPush (str userKey) (str apiToken))
   else None).

(** The script without [--list-devices], step by step. *)
Lemma main_unfold (argv : Argv) (env : Env) (w : World) :
  listDevices argv = false ->
  exists w1,
    notify_calls w1 = notify_calls w
    /\ handed_over w1 = handed_over w
    /\ browser_calls w1 = browser_calls w
    /\ main argv env w
       = match checkSteamDeckStock (device argv) (client_of argv env)
                 (notifySuccess argv) env w1 with
         | (Ok _, w2) =>
             (0%Z, snd (console_log [Txt "✅ Stock check completed successfully"] env w2))
         | (Throw error, w2) =>
             (1%Z, snd (reportCritical (client_of argv env) error env w2))
         end.
Proof.
  intros Hl. unfold main, initializePushover. rewrite Hl. cbv zeta.
  destruct (truthy _ && truthy _); cbv [bind console_log ret]; cbn [fst snd];
    match goal with
    | |- context [checkSteamDeckStock ?c ?p ?ns env ?w1] => exists w1
    end;
    (split; [reflexivity|]); (split; [reflexivity|]); (split; [reflexivity|]);
    match goal with
    | |- context [checkSteamDeckStock ?c ?p ?ns env ?w1] =>
        destruct (checkSteamDeckStock c p ns env w1) as [[[]|e] w2]; [reflexivity|]
    end;
    match goal with
    | |- context [reportCritical ?q ?e0 env ?w3] =>
        now destruct (reportCritical q e0 env w3)
    end.
Qed.

(** X1: whatever the arguments and the environment, a run of the script
    composes at most three notifications (the result of the check, the error
    report, the critical report), and the messages it hands to the Pushover
    client are exactly those, in the same order, when both credentials are
    non-empty strings (from the command line or, failing that, from the
    environment); when a credential is missing or empty, nothing is handed
    over at all. *)
Theorem script_hands_over_what_it_composes (argv : Argv) (env : Env) (w : World) :
  let w' := snd (main argv env w) in
  let userKey := or_else (pushoverUser argv) (PUSHOVER_USER env) in
  let apiToken := or_else (pushoverToken argv) (PUSHOVER_TOKEN env) in
  exists sent,
    notify_calls w' = (notify_calls w ++ sent)%list
    /\ handed_over w'
       = (handed_over w ++ if truthy userKey && truthy apiToken then sent else [])%list
    /\ (List.length sent <= 3)%nat.
Proof.
  cbv zeta. destruct (listDevices argv) eqn:Hl.
  - exists []. unfold main. rewrite Hl. cbn.
    destruct (truthy _ && truthy _); rewrite !app_nil_r; repeat split; lia.
  - destruct (main_unfold argv env w Hl) as (w1 & Hn1 & Hh1 & _ & ->).
    destruct (checkSteamDeckStock_trace (device argv) (client_of argv env)
                (Restock.notifySuccess argv) env w1) as (sent & Hn & Hh & Hlen).
    destruct (checkSteamDeckStock (device argv) (client_of argv env)
                (Restock.notifySuccess argv) env w1) as [[[]|e] w2];
      cbv [console_log]; cbn [snd notify_calls handed_over] in *.
    + exists sent. rewrite Hn, Hh, Hn1, Hh1. split; [reflexivity|].
      split; [now destruct (truthy _ && truthy _) | lia].
    + destruct (reportCritical_trace (client_of argv env) e env w2)
        as (_ & more & Hn' & Hh' & Hlen').
      cbv zeta in *.
      exists (sent ++ more)%list. rewrite Hn', Hh', Hn, Hh, Hn1, Hh1, <- !app_assoc.
      split; [reflexivity|].
      split; [now destruct (truthy _ && truthy _) | rewrite length_app; lia].
Qed.

(** X2: the browser session of a run of the script.  With [--list-devices],
    and when the device lookup is undefined, puppeteer is never called.
    Otherwise [puppeteer.launch] is the first call; if it rejects it is the
    only one; if it resolves, [browser.close] is called exactly once, as the
    last call, on every path (stock found or not, scraper or notifier
    failing). *)
Theorem browser_closed_exactly_once (argv : Argv) (env : Env) (w : World) :
  let w' := snd (main argv env w) in
  if listDevices argv then browser_calls w' = browser_calls w
  else
    match DEVICES_get (device argv), rejects env Launch with
    | None, _ => browser_calls w' = browser_calls w
    | Some _, Some _ => browser_calls w' = (browser_calls w ++ [Launch])%list
    | Some _, None =>
        exists middle,
          browser_calls w' = (browser_calls w ++ Launch :: middle ++ [Close])%list
          /\ ~ In Close middle /\ ~ In Launch middle
    end.
Proof.
  cbv zeta. destruct (listDevices argv) eqn:Hl.
  - unfold main. rewrite Hl. reflexivity.
  - destruct (main_unfold argv env w Hl) as (w1 & _ & _ & Hc1 & ->).
    pose proof (checkSteamDeckStock_session (device argv) (client_of argv env)
                  (Restock.notifySuccess argv) env w1) as H.
    cbv zeta in H. rewrite Hc1 in H.
    destruct (checkSteamDeckStock (device argv) (client_of argv env)
                (Restock.notifySuccess argv) env w1) as [[[]|e] w2];
      cbv [console_log]; cbn [snd browser_calls] in *; [exact H|].
    destruct (reportCritical_trace (client_of argv env) e env w2) as (Hc & _).
    cbv zeta in *. now rewrite Hc.
Qed.

Lemma assoc_None {A} (entries : list (string * A)) (key : string) :
  assoc key entries = None <-> ~ In key (map fst entries).
Proof.
  induction entries as [|[k v] entries IH]; cbn [assoc map fst In].
  - tauto.
  - destruct (String.eqb_spec key k) as [->|Hne].
    + split; [discriminate | intros H; elim H; now left].
    + rewrite IH. split; [intros H [Heq|Hin]; [now elim Hne | now elim H] | tauto].
Qed.

(** X3: the function rejects a device code exactly when the code is neither
    a key of the catalog nor a property name of [Object.prototype].  It then
    throws an error whose message names the code and lists the four catalog
    codes, having written nothing to the console, called no browser function
    and composed no notification. *)
Theorem unknown_code_rejected_exactly (code : string) (pushover : option Push)
    (flag : bool) (env : Env) (w : World) :
  let run := checkSteamDeckStock code pushover flag env w in
  let text := "Unknown device code: " ++ code
              ++ ". Available: oled-512, oled-1tb, lcd-256, lcd-512" in
  (fst run = Throw (mkError text (new_stack env text))
   /\ console (snd run) = console w
   /\ browser_calls (snd run) = browser_calls w
   /\ notify_calls (snd run) = notify_calls w
   /\ handed_over (snd run) = handed_over w)
  <-> ~ In code ((map fst DEVICES ++ map fst OBJECT_PROTOTYPE) ++ ["__proto__"])%list.
Proof.
  cbv zeta.
  assert (Hget : DEVICES_get code = None
                 <-> ~ In code ((map fst DEVICES ++ map fst OBJECT_PROTOTYPE)
                                ++ ["__proto__"])%list).
  { unfold DEVICES_get. rewrite !in_app_iff.
    destruct (assoc code DEVICES) eqn:Hd.
    - split; [discriminate|]. intros H. exfalso. apply H. left. left.
      apply assoc_Some_In in Hd. now apply (in_map fst _ (code, d)).
    - apply assoc_None in Hd. destruct (assoc code OBJECT_PROTOTYPE) eqn:Hp.
      + split; [discriminate|]. intros H. exfalso. apply H. left. right.
        apply assoc_Some_In in Hp. now apply (in_map fst _ (code, s)).
      + apply assoc_None in Hp. destruct (String.eqb_spec code "__proto__") as [->|Hne].
        * split; [discriminate|]. intros H. exfalso. apply H. right. now left.
        * split; [|reflexivity]. intros _ [[H|H]|[H|[]]]; auto. }
  rewrite <- Hget. split.
  - intros (_ & _ & Hc & _).
    pose proof (checkSteamDeckStock_session code pushover flag env w) as H.
    cbv zeta in H. rewrite Hc in H.
    destruct (DEVICES_get code); [exfalso|reflexivity].
    destruct (rejects env Launch).
    + apply (f_equal (@List.length _)) in H. rewrite length_app in H. cbn in H. lia.
    + destruct H as (middle & H & _).
      apply (f_equal (@List.length _)) in H. rewrite length_app in H. cbn in H. lia.
  - intros Hnone. unfold checkSteamDeckStock. rewrite Hnone. repeat split; reflexivity.
Qed.

(** X4: with [--list-devices] the script prints a header and one line per
    catalog device (code padded to ten characters, then the display name) and
    exits with code 0; whatever the other options and the environment, it
    starts no browser and composes no notification. *)
Theorem list_devices_only_prints (argv : Argv) (env : Env) (w : World) :
  listDevices argv = true ->
  main argv env w
  = (0%Z,
     mkWorld
       (console w
        ++ (Stdout, [Txt "📱 Available Steam Deck devices:"])
           :: map (fun entry : string * Device =>
                     (Stdout, [Txt ("  " ++ padEnd (fst entry) 10 ++ " - "
                                    ++ name (snd entry))]))
                DEVICES)
       (browser_calls w) (handed_over w) (notify_calls w) (browser w)).
Proof.
  intros Hl. unfold main. rewrite Hl.
  cbv [bind console_log ret printDevices DEVICES map fst snd].
  cbn [console browser_calls handed_over notify_calls browser].
  now rewrite <- !app_assoc.
Qed.

Lemma list_devices_only_prints_witness :
  let argv := mkArgv "lcd-256" (Some "user") (Some "token") true true in
  let env := mkEnv (fun _ => Some (mkError "no browser" "")) []
               (fun _ _ => inl (mkError "no service" "")) "" (fun _ => "") None None in
  listDevices argv = true
  /\ main argv env start
     = (0%Z,
        mkWorld
          [(Stdout, [Txt "📱 Available Steam Deck devices:"]);
           (Stdout, [Txt "  oled-512   - Steam Deck OLED 512GB"]);
           (Stdout, [Txt "  oled-1tb   - Steam Deck OLED 1TB"]);
           (Stdout, [Txt "  lcd-256    - Steam Deck LCD 256GB"]);
           (Stdout, [Txt "  lcd-512    - Steam Deck LCD 512GB"])]
          [] [] [] None).
Proof.
  intros argv env. split; [reflexivity|].
  exact (list_devices_only_prints argv env start eq_refl).
Defined.

(** How the first notification of the decision ends: normally without a
    client or when the service accepts it, with the service's error
    otherwise. *)
Local Abbreviation delivered pushover env w n r :=
  (match pushover with
   | None => r = Ok tt
   | Some _ =>
       match pushover_reply env (List.length (handed_over w)) n with
       | inr _ => r = Ok tt
       | inl failure => r = Throw failure
       end
   end).

Ltac notify_outcome :=
  match goal with
  | |- context [sendNotification ?p ?m ?t ?pr ?s ?env ?w0] =>
      let H := fresh "H" in
      pose proof (sendNotification_run p m t pr s env w0) as H;
      cbv zeta in H; destruct H as (Hn & Hh & _ & _ & Hr);
      destruct (sendNotification p m t pr s env w0) as [r1 w1];
      set (body := m) in *;
      cbn [fst snd default notify_calls handed_over browser console browser_calls] in *
  end.

Ltac close_outcome pushover Hr :=
  destruct pushover;
  [ match type of Hr with
    | context [pushover_reply ?env ?k ?n] => destruct (pushover_reply env k n)
    end
  | ];
  first [ reflexivity
        | discriminate
        | destruct Hr as [Hr _]; first [discriminate | congruence] ].

Lemma announce_in_stock (pushover : option Push) (flag : bool) (d : Device)
    (available : list string) (env : Env) (w : World) :
  let r := fst (announce pushover flag (OwnDevice d) true available env w) in
  let w' := snd (announce pushover flag (OwnDevice d) true available env w) in
  exists n,
    notify_calls w' = (notify_calls w ++ [n])%list
    /\ handed_over w' = (handed_over w ++ received pushover [n])%list
    /\ msg_title n = "🚨 " ++ toUpperCase (name d) ++ " IN STOCK! 🚨"
    /\ msg_priority n = priority d
    /\ msg_sound n = sound d
    /\ Substring (name d) (msg_message n)
    /\ Substring STORE_URL (msg_message n)
    /\ delivered pushover env w n r.
Proof.
  cbv zeta. unfold announce. cbn [get_name get_priority get_sound str].
  cbv [bind console_log ret]. notify_outcome.
  exists (mkMessage body ("🚨 " ++ toUpperCase (name d) ++ " IN STOCK! 🚨")
            (priority d) (sound d)).
  cbn [msg_title msg_priority msg_sound msg_message].
  assert (Hname : Substring (name d) body).
  { unfold body. apply Substring_append_l, Substring_append_r, Substring_refl. }
  assert (Hurl : Substring STORE_URL body).
  { unfold body. do 6 apply Substring_append_l. apply Substring_refl. }
  destruct r1 as [a|e]; cbn [fst snd]; repeat split; trivial;
    close_outcome pushover Hr.
Qed.


(** X5: in every run where the monitored catalog device is in the
    availability result, the first notification is the "IN STOCK" alert of
    that device: its title is the upper-cased display name between the
    sirens, its priority and sound are the device's own, and its body names
    the device and the store page.  No "other devices" or heartbeat message
    follows, even when other devices are in stock too; the only possible
    second notification is the error report after a failed delivery. *)
Theorem in_stock_alert_first (env : Env) (w : World) (code : string) (d : Device)
    (pushover : option Push) (flag : bool) (texts : list string) :
  In (code, d) DEVICES ->
  scrape_outcome env = Ok texts ->
  In code (checkAllDevicesAvailability texts) ->
  let w' := snd (checkSteamDeckStock code pushover flag env w) in
  exists n rest,
    notify_calls w' = (notify_calls w ++ n :: rest)%list
    /\ handed_over w' = (handed_over w ++ received pushover (n :: rest))%list
    /\ msg_title n = "🚨 " ++ toUpperCase (name d) ++ " IN STOCK! 🚨"
    /\ msg_priority n = priority d
    /\ msg_sound n = sound d
    /\ Substring (name d) (msg_message n)
    /\ Substring STORE_URL (msg_message n)
    /\ Forall (fun m => msg_title m = ERROR_TITLE) rest
    /\ (pushover = None -> rest = []).
Proof.
  intros Hin Hs Hav. cbv zeta.
  destruct (checkSteamDeckStock_run code d pushover flag env w Hin)
    as (w1 & Hn1 & Hh1 & H).
  destruct (stockCheck_run pushover flag (OwnDevice d) env w1)
    as (w2 & Hn2 & Hh2 & Hrun).
  apply (In_checkAll texts code d Hin) in Hav. rewrite Hs, Hav in Hrun.
  rewrite Hrun in H. clear Hrun. cbv zeta in H.
  destruct (announce_in_stock pushover flag d (checkAllDevicesAvailability texts) env w2)
    as (n & Hn & Hh & Ht & Hp & Hsd & Hname & Hurl & Hd).
  destruct (fst (announce pushover flag (OwnDevice d) true
                   (checkAllDevicesAvailability texts) env w2)) as [[]|e].
  - destruct H as (Hn' & Hh' & _). exists n, [].
    rewrite Hn', Hh', Hn, Hh, Hn2, Hh2, Hn1, Hh1. repeat split; trivial.
  - destruct H as (_ & _ & m & Hn' & Hh' & Hmt & _). exists n, [m].
    rewrite Hn', Hh', Hn, Hh, Hn2, Hh2, Hn1, Hh1, <- !app_assoc.
    repeat split; trivial.
    + now destruct pushover.
    + now repeat constructor.
    + intros ->. discriminate.
Qed.

Lemma in_stock_alert_first_witness :
  let env := mkEnv (fun _ => None)
               ["Steam Deck OLED 1TB refurbished Add to cart";
                "Steam Deck LCD 256GB refurbished Add to cart"]
               (fun _ _ => inr (mkResult 1 "accepted"))
               "2025-01-01T00:00:00.000Z" (fun _ => "") None None in
  let d := mkDevice "Steam Deck LCD 256GB" 0 "pushover" in
  let w' := snd (checkSteamDeckStock "lcd-256" (Some (mkPush "user" "token")) true
                   env start) in
  (In ("lcd-256", d) DEVICES
   /\ scrape_outcome env = Ok (cart_texts env)
   /\ In "lcd-256" (checkAllDevicesAvailability (cart_texts env)))
  /\ exists n rest,
       notify_calls w' = n :: rest
       /\ handed_over w' = n :: rest
       /\ msg_title n = "🚨 STEAM DECK LCD 256GB IN STOCK! 🚨"
       /\ msg_priority n = 0%Z
       /\ msg_sound n = "pushover".
Proof.
  intros env d w'.
  assert (H1 : In ("lcd-256", d) DEVICES) by (cbn; auto).
  assert (H2 : scrape_outcome env = Ok (cart_texts env)) by reflexivity.
  assert (H3 : In "lcd-256" (checkAllDevicesAvailability (cart_texts env)))
    by (cbn; auto).
  split; [auto|].
  destruct (in_stock_alert_first env start "lcd-256" d (Some (mkPush "user" "token"))
              true (cart_texts env) H1 H2 H3)
    as (n & rest & Hn & Hh & Ht & Hp & Hsd & _).
  exists n, rest. auto.
Defined.



End Traces.

(** ** The scraped texts and the availability result *)

Module Results.

Import Js JsFacts Restock Classification Runs.

Lemma evaluateAll_outcome (containers : list string) :
  forall index acc env w texts,
    fst (evaluateAll index containers acc env w) = Ok texts
    <-> texts = (acc ++ containers)%list
        /\ forall k, (k < List.length containers)%nat ->
                     rejects env (Evaluate (index + k)) = None.
Proof.
  induction containers as [|text rest IH]; intros index acc env w texts.
  - cbn. rewrite app_nil_r. split.
    + intros [= ->]. split; [reflexivity|]. intros k Hk. lia.
    + now intros [-> _].
  - cbn [evaluateAll]. run. destruct (rejects env (Evaluate index)) eqn:Hr.
    + cbn [fst]. split; [discriminate|]. intros [_ H].
      specialize (H 0%nat). rewrite Nat.add_0_r, Hr in H.
      cbn in H. specialize (H (Nat.lt_0_succ _)). discriminate.
    + rewrite IH, <- app_assoc. cbn [app List.length]. split; intros [Ht H].
      * split; [exact Ht|]. intros [|k] Hk.
        -- now rewrite Nat.add_0_r.
        -- rewrite Nat.add_succ_r. apply (H k). lia.
      * split; [exact Ht|]. intros k Hk.
        specialize (H (S k)). rewrite Nat.add_succ_r in H. apply H. lia.
Qed.

(** X7: the scrape is all or nothing.  It yields texts exactly when every
    puppeteer call resolves (launch, new page, user agent, navigation, focus,
    query, and the [evaluate] of every cart button); the texts are then those
    of the product cards, one per cart button, in page order.  One rejected
    call, even the [evaluate] of the last button, loses all of them. *)
Theorem scrape_all_or_nothing (env : Env) (texts : list string) :
  scrape_outcome env = Ok texts
  <-> texts = cart_texts env
      /\ (forall call,
            In call [Launch; NewPage; SetUserAgent USER_AGENT; Goto STORE_URL;
                     Focus "div.CartBtn"; QueryAll "div.CartBtn"] ->
            rejects env call = None)
      /\ (forall k, (k < List.length (cart_texts env))%nat ->
                    rejects env (Evaluate k) = None).
Proof.
  unfold scrape_outcome, scrapeCartButtonTexts. run.
  assert (Hsetup : forall call, rejects env call <> None ->
            In call [Launch; NewPage; SetUserAgent USER_AGENT; Goto STORE_URL;
                     Focus "div.CartBtn"; QueryAll "div.CartBtn"] ->
            ~ (forall c,
                 In c [Launch; NewPage; SetUserAgent USER_AGENT; Goto STORE_URL;
                       Focus "div.CartBtn"; QueryAll "div.CartBtn"] ->
                 rejects env c = None)).
  { intros call Hr Hin H. now apply Hr, H. }
  repeat (run_step;
          [cbn [fst]; split; [discriminate|]; intros (_ & H & _); exfalso;
           match goal with
           | Hx : rejects env ?c = Some _ |- _ =>
               apply (Hsetup c); [rewrite Hx; discriminate | cbn; auto 10 | exact H]
           end|]).
  cbn [fst snd console browser_calls handed_over notify_calls browser].
  rewrite evaluateAll_outcome. cbn [app Nat.add]. split.
  - intros [-> H]. repeat split; trivial.
    intros call Hin. cbn in Hin. intuition (subst; assumption).
  - intros (-> & _ & H). now split.
Qed.

Lemma NoDup_map_filter {A B} (f : A -> B) (keep : A -> bool) (l : list A) :
  NoDup (map f l) -> NoDup (map f (filter keep l)).
Proof.
  induction l as [|a l IH]; cbn [map filter]; intros Hnd; [constructor|].
  inversion Hnd as [|? ? Hnotin Hnd']; subst.
  destruct (keep a); [|now apply IH]. cbn [map]. constructor; [|now apply IH].
  intros Hin. apply Hnotin. apply in_map_iff in Hin. destruct Hin as [x [Hx Hf]].
  apply filter_In in Hf. apply in_map_iff. exists x. tauto.
Qed.

(** X8: the availability result lists catalog codes only, each at most once,
    in the order of the catalog: it is the list of catalog keys with some
    keys left out.  Every code in it is found again by [DEVICES[code]] as the
    catalog's own device. *)
Theorem availability_result_in_catalog_order (texts : list string) :
  NoDup (checkAllDevicesAvailability texts)
  /\ (exists keep, checkAllDevicesAvailability texts = filter keep (map fst DEVICES))
  /\ (forall code,
        In code (checkAllDevicesAvailability texts) ->
        exists d, In (code, d) DEVICES /\ DEVICES_get code = Some (OwnDevice d)).
Proof.
  split; [|split].
  - rewrite checkAll_filter. apply NoDup_map_filter, keys_NoDup.
  - exists (fun code =>
              match assoc code DEVICES with
              | Some d => checkDeviceAvailability texts (OwnDevice d)
              | None => false
              end).
    rewrite checkAll_filter. cbn.
    repeat match goal with
           | |- context [checkDeviceAvailability texts ?m] =>
               destruct (checkDeviceAvailability texts m)
           end; reflexivity.
  - intros code Hc. destruct (checkAll_subset_catalog texts code Hc) as [d [Hd _]].
    exists d. split; [exact Hd | now apply DEVICES_get_own].
Qed.

(** X9: the availability result depends on the set of texts only: two
    sequences with the same elements, in any order and with any repetitions,
    give the same result. *)
Theorem same_texts_same_result (texts texts' : list string) :
  (forall text, In text texts <-> In text texts') ->
  checkAllDevicesAvailability texts = checkAllDevicesAvailability texts'.
Proof.
  intros Hsame. rewrite !checkAll_filter. f_equal. apply filter_ext.
  intros [code d]. cbn [snd]. unfold checkDeviceAvailability.
  apply eq_true_iff_eq. rewrite !existsb_exists.
  split; intros [text [Hin H]]; exists text; split; trivial; now apply Hsame.
Qed.

Lemma same_texts_same_result_witness :
  let a := "Steam Deck LCD 256GB Add to cart" in
  let b := "Steam Deck OLED 1TB Out of stock" in
  (forall text, In text [a; b; a] <-> In text [b; a])
  /\ checkAllDevicesAvailability [a; b; a] = checkAllDevicesAvailability [b; a].
Proof.
  intros a b.
  assert (H : forall text, In text [a; b; a] <-> In text [b; a]) by (cbn; tauto).
  split; [exact H|]. exact (same_texts_same_result [a; b; a] [b; a] H).
Defined.

End Results.

(** ** The earlier generations *)

Module Earlier.

Import Js JsFacts Restock Classification Runs.

Lemma settle_console_only (pending : option (JsError + PushoverResult)) (env : Env)
    (w : World) :
  handed_over (snd (Unawaited.settle pending env w)) = handed_over w
  /\ notify_calls (snd (Unawaited.settle pending env w)) = notify_calls w
  /\ browser_calls (snd (Unawaited.settle pending env w)) = browser_calls w.
Proof. destruct pending as [[e|r]|]; cbn; auto. Qed.

(** The frame of [guarded]: after the body and, for an exception, the
    handler, only the console and the browser calls change; the outcome is
    the body's, or the close's rejection. *)
Lemma guarded_run (body : M unit)
    (handler : JsError -> M (option (JsError + PushoverResult)))
    (replyInTime : bool) (env : Env) (w : World) :
  (forall e w0, exists pending, fst (handler e env w0) = Ok pending) ->
  let w1 := match fst (body env w) with
            | Ok _ => snd (body env w)
            | Throw e => snd (handler e env (snd (body env w)))
            end in
  let run := Unawaited.guarded body handler replyInTime env w in
  handed_over (snd run) = handed_over w1
  /\ notify_calls (snd run) = notify_calls w1
  /\ (rejects env Close = None -> fst run = fst (body env w))
  /\ exists e, fst run = fst (body env w) \/ fst run = Throw e.
Proof.
  intros Hh. cbv zeta. unfold Unawaited.guarded.
  destruct (body env w) as [[[]|e] w1]; cbn [fst snd].
  - destruct (browser w1); [|repeat split; trivial; exists (mkError "" ""); now left].
    cbv [puppeteer]. destruct (rejects env Close) as [e'|]; destruct replyInTime;
      cbn [fst snd handed_over notify_calls Unawaited.settle ret];
      repeat split; trivial; try discriminate;
      solve [exists e'; now right | exists (mkError "" ""); now left].
  - destruct (Hh e w1) as [pending Hp].
    destruct (handler e env w1) as [r2 w2]. cbn [fst snd] in *. subst r2.
    destruct (browser w2); [|repeat split; trivial; exists e; now left].
    cbv [puppeteer].
    destruct (settle_console_only pending env
                (mkWorld (console w2) (browser_calls w2 ++ [Close])
                   (handed_over w2) (notify_calls w2) (browser w2))) as (H1 & H2 & _).
    cbn [handed_over notify_calls] in H1, H2.
    destruct (rejects env Close) as [e'|]; destruct replyInTime; cbn [fst snd];
      rewrite ?H1, ?H2; cbn [handed_over notify_calls];
      repeat split; trivial; try discriminate;
      solve [exists e'; now right | exists e; now left].
Qed.

(** Whether [process.env] holds both credentials. *)
Local Abbreviation configured env :=
  (truthy (PUSHOVER_USER env) && truthy (PUSHOVER_TOKEN env)).

Lemma initializePushover_run (env : Env) (w : World) :
  exists w1,
    handed_over w1 = handed_over w
    /\ notify_calls w1 = notify_calls w
    /\ browser_calls w1 = browser_calls w
    /\ browser w1 = browser w
    /\ Unawaited.initializePushover env w
       = (Ok (if configured env
              then Some (mkPush (str (PUSHOVER_USER env)) (str (PUSHOVER_TOKEN env)))
              else None), w1).
Proof.
  unfold Unawaited.initializePushover. cbv [bind ask].
  destruct (configured env); cbv [bind console_log ret]; eexists;
    (split; [|split; [|split; [|split; [|reflexivity]]]]); reflexivity.
Qed.

(** One call of the four-argument notifier. *)
Lemma old_sendNotification_run (pushover : option Push) (message : string)
    (title : option string) (priority : option Z) (env : Env) (w : World) :
  let n := mkMessage message (default "Steam Deck Restock Alert" title)
             (default 0%Z priority)
             (if (0 <? default 0%Z priority)%Z then "magic" else "pushover") in
  let r := fst (SingleDevice.sendNotification pushover message title priority env w) in
  let w' := snd (SingleDevice.sendNotification pushover message title priority env w) in
  notify_calls w' = notify_calls w
  /\ browser w' = browser w
  /\ browser_calls w' = browser_calls w
  /\ match pushover with
     | None => r = Ok None /\ handed_over w' = handed_over w
     | Some _ =>
         handed_over w' = (handed_over w ++ [n])%list
         /\ match pushover_reply env (List.length (handed_over w)) n with
            | inr result => r = Ok (Some result)
            | inl error => r = Throw error
            end
     end.
Proof.
  unfold SingleDevice.sendNotification. destruct pushover as [client|]; run.
  - run_step; cbn; auto.
  - cbn. auto.
Qed.

Lemma single_stockCheck_run (pushover : option Push) (env : Env) (w : World) :
  exists w1,
    handed_over w1 = handed_over w
    /\ notify_calls w1 = notify_calls w
    /\ SingleDeviceRun.stockCheck pushover env w
       = match scrape_outcome env with
         | Ok texts =>
             if SingleDeviceRun.checkOledAvailability texts then
               (SingleDevice.sendNotification pushover
                  ("🎉 Steam Deck OLED 512GB is now available for purchase!" ++ nl ++ nl
                   ++ "Check: " ++ STORE_URL)
                  (Some SingleDeviceRun.IN_STOCK_TITLE) (Some 1%Z) ;;
                ret tt) env
                 (mkWorld (console w1 ++ [(Stdout, [Txt "🎉 OLED 512GB is in stock!"])])
                    (browser_calls w1) (handed_over w1) (notify_calls w1) (browser w1))
             else
               (Ok tt,
                mkWorld (console w1 ++ [(Stdout, [Txt "❌ No OLED 512GB in stock."])])
                  (browser_calls w1) (handed_over w1) (notify_calls w1) (browser w1))
         | Throw e => (Throw e, w1)
         end.
Proof.
  unfold SingleDeviceRun.stockCheck. cbv [bind console_log].
  match goal with
  | |- context [scrapeCartButtonTexts env ?w0] =>
      destruct (scrape_run env w0) as (Hr & Hh & Hn);
      destruct (scrapeCartButtonTexts env w0) as [r w1]
  end.
  cbn [fst snd handed_over notify_calls] in Hr, Hh, Hn. rewrite <- Hr.
  destruct r as [texts|e]; [|exists w1; auto].
  exists (mkWorld
            (((console w1
               ++ [(Stdout, [Txt "Found cart buttons:"; Num (List.length texts)])])
              ++ [(Stdout, [CartButtonTexts texts])])
             ++ [(Stdout, [Txt ("OLED 512GB Available: "
                                ++ bool_text (SingleDeviceRun.checkOledAvailability texts))])])
            (browser_calls w1) (handed_over w1) (notify_calls w1) (browser w1)).
  cbn [console browser_calls handed_over notify_calls browser].
  split; [exact Hh|]. split; [exact Hn|].
  destruct (SingleDeviceRun.checkOledAvailability texts); reflexivity.
Qed.

Lemma single_reportError_run (pushover : option Push) (error : JsError) (env : Env)
    (w : World) :
  let n := mkMessage ("Steam Deck checker encountered an error: " ++ err_message error)
             SingleDeviceRun.CHECKER_ERROR_TITLE 0 "pushover" in
  (exists pending, fst (SingleDeviceRun.reportError pushover error env w) = Ok pending)
  /\ notify_calls (snd (SingleDeviceRun.reportError pushover error env w)) = notify_calls w
  /\ handed_over (snd (SingleDeviceRun.reportError pushover error env w))
     = (handed_over w ++ match pushover with Some _ => [n] | None => [] end)%list.
Proof.
  cbv zeta. unfold SingleDeviceRun.reportError, Unawaited.start.
  destruct pushover; cbv [bind console_error console_log ret]; cbn;
    rewrite ?app_nil_r; repeat split; eexists; reflexivity.
Qed.

(** X10: the check of the single-device generation is the search-term check
    of the later catalog's "oled-512" entry: for every sequence of texts the
    two agree, and both hold exactly when some text contains both
    "Steam Deck 512 GB OLED" and "Add to cart". *)
Theorem checkOled_is_the_oled_512_entry (texts : list string) :
  (forall d,
     In ("oled-512", d) SearchTerms.DEVICES ->
     SearchTerms.checkDeviceAvailability texts d
     = SingleDeviceRun.checkOledAvailability texts)
  /\ (SingleDeviceRun.checkOledAvailability texts = true
      <-> exists text,
            In text texts
            /\ Substring "Steam Deck 512 GB OLED" text
            /\ Substring "Add to cart" text).
Proof.
  split.
  - intros d [H|[H|[H|[H|[]]]]]; try discriminate. injection H as <-.
    unfold SearchTerms.checkDeviceAvailability, SingleDeviceRun.checkOledAvailability.
    cbn [SearchTerms.searchTerms forallb].
    induction texts as [|text rest IH]; cbn [existsb]; [reflexivity|].
    now rewrite IH, andb_true_r.
  - unfold SingleDeviceRun.checkOledAvailability. rewrite existsb_exists.
    split; intros [text [Hin H]]; exists text; (split; [exact Hin|]).
    + apply andb_true_iff in H. now rewrite <- !includes_iff.
    + apply andb_true_iff. now rewrite !includes_iff.
Qed.

(** X11: a run of the single-device script whose scrape succeeds.  Without
    stock, or without both credentials in the environment, nothing is handed
    to Pushover and the function returns normally.  With stock and
    credentials the alert (fixed title, priority 1, sound "magic") is handed
    over; if the service accepts it the function returns normally, and if the
    service fails the function throws that failure after handing over an
    error report of priority 0 that it does not wait for. *)
Theorem single_device_run (replyInTime : bool) (env : Env) (w : World)
    (texts : list string) :
  scrape_outcome env = Ok texts ->
  rejects env Close = None ->
  let run := SingleDeviceRun.checkSteamDeckStock replyInTime env w in
  let alert := mkMessage ("🎉 Steam Deck OLED 512GB is now available for purchase!"
                          ++ nl ++ nl ++ "Check: " ++ STORE_URL)
                 SingleDeviceRun.IN_STOCK_TITLE 1 "magic" in
  if SingleDeviceRun.checkOledAvailability texts && configured env then
    match pushover_reply env (List.length (handed_over w)) alert with
    | inr _ => fst run = Ok tt /\ handed_over (snd run) = (handed_over w ++ [alert])%list
    | inl failure =>
        fst run = Throw failure
        /\ handed_over (snd run)
           = (handed_over w
              ++ [alert;
                  mkMessage ("Steam Deck checker encountered an error: "
                             ++ err_message failure)
                    SingleDeviceRun.CHECKER_ERROR_TITLE 0 "pushover"])%list
    end
  else fst run = Ok tt /\ handed_over (snd run) = handed_over w.
Proof.
  intros Hs Hclose. cbv zeta. unfold SingleDeviceRun.checkSteamDeckStock.
  cbv [bind set_browser].
  match goal with
  | |- context [Unawaited.initializePushover env ?w0] =>
      destruct (initializePushover_run env w0) as (w1 & Hh1 & _ & _ & _ & ->)
  end.
  cbn [handed_over] in Hh1.
  set (pushover := if configured env then Some _ else None).
  destruct (guarded_run (SingleDeviceRun.stockCheck pushover)
              (SingleDeviceRun.reportError pushover) replyInTime env w1)
    as (Hh & _ & Hr & _).
  { intros e w0. apply (single_reportError_run pushover e env w0). }
  specialize (Hr Hclose). rewrite Hr, Hh. clear Hr Hh.
  destruct (single_stockCheck_run pushover env w1) as (w2 & Hh2 & _ & ->).
  rewrite Hs.
  destruct (SingleDeviceRun.checkOledAvailability texts); cbn [andb fst snd handed_over];
    [|destruct (configured env); rewrite Hh2, Hh1; auto].
  cbv [bind ret].
  match goal with
  | |- context [SingleDevice.sendNotification ?p ?m ?t ?pr env ?w0] =>
      pose proof (old_sendNotification_run p m t pr env w0) as H;
      destruct (SingleDevice.sendNotification p m t pr env w0) as [r3 w3]
  end.
  cbv zeta in H. cbn [fst snd default handed_over Z.ltb Z.compare] in H.
  destruct H as (_ & _ & _ & H). rewrite Hh2, Hh1 in H.
  subst pushover. destruct (configured env).
  - destruct H as (Hh3 & H).
    destruct (pushover_reply env (Datatypes.length (handed_over w)) _) as [failure|result];
      subst r3; cbn [fst snd].
    + split; [reflexivity|].
      destruct (single_reportError_run
                  (Some (mkPush (str (PUSHOVER_USER env)) (str (PUSHOVER_TOKEN env))))
                  failure env w3) as (_ & _ & Hh4).
      rewrite Hh4, Hh3, <- app_assoc. reflexivity.
    + split; [reflexivity | exact Hh3].
  - destruct H as (-> & Hh3). cbn [fst snd]. auto.
Qed.

Lemma single_device_run_witness :
  let env := mkEnv (fun _ => None) ["Steam Deck 512 GB OLED refurbished Add to cart"]
               (fun _ _ => inl (mkError "connect ETIMEDOUT" ""))
               "2025-01-01T00:00:00.000Z" (fun _ => "") (Some "user") (Some "token") in
  (scrape_outcome env = Ok (cart_texts env) /\ rejects env Close = None)
  /\ fst (SingleDeviceRun.checkSteamDeckStock true env start)
     = Throw (mkError "connect ETIMEDOUT" "")
  /\ List.length (handed_over (snd (SingleDeviceRun.checkSteamDeckStock true env start)))
     = 2%nat.
Proof.
  intros env.
  assert (H1 : scrape_outcome env = Ok (cart_texts env)) by reflexivity.
  assert (H2 : rejects env Close = None) by reflexivity.
  split; [auto|].
  pose proof (single_device_run true env start (cart_texts env) H1 H2) as H.
  destruct H as [Hr Hh]. split; [exact Hr|]. now rewrite Hh.
Defined.

(** X12: a run of the single-device script whose scrape throws.  The error
    report (priority 0) is handed to the client when both credentials are
    set, and is not awaited: whatever the service answers, and whether or not
    the answer arrives before the browser is closed, the function throws the
    scraper's error and the script exits with code 1. *)
Theorem single_device_error_not_awaited (replyInTime : bool) (env : Env) (w : World)
    (e : JsError) :
  scrape_outcome env = Throw e ->
  let run := SingleDeviceRun.checkSteamDeckStock replyInTime env w in
  (rejects env Close = None -> fst run = Throw e)
  /\ handed_over (snd run)
     = (handed_over w
        ++ if configured env
           then [mkMessage ("Steam Deck checker encountered an error: " ++ err_message e)
                   SingleDeviceRun.CHECKER_ERROR_TITLE 0 "pushover"]
           else [])%list
  /\ fst (SingleDeviceRun.main replyInTime env w) = 1%Z.
Proof.
  intros Hs. cbv zeta. unfold SingleDeviceRun.main, SingleDeviceRun.checkSteamDeckStock.
  cbv [bind set_browser].
  match goal with
  | |- context [Unawaited.initializePushover env ?w0] =>
      destruct (initializePushover_run env w0) as (w1 & Hh1 & _ & _ & _ & ->)
  end.
  cbn [handed_over] in Hh1.
  set (pushover := if configured env then Some _ else None).
  destruct (guarded_run (SingleDeviceRun.stockCheck pushover)
              (SingleDeviceRun.reportError pushover) replyInTime env w1)
    as (Hh & _ & Hr & e' & Hthrow).
  { intros e0 w0. apply (single_reportError_run pushover e0 env w0). }
  destruct (single_stockCheck_run pushover env w1) as (w2 & Hh2 & _ & Hrun).
  rewrite Hs in Hrun. rewrite Hrun in *. cbn [fst snd] in *.
  destruct (single_reportError_run pushover e env w2) as (_ & _ & Hh3).
  split; [exact Hr|]. split.
  - rewrite Hh, Hh3, Hh2, Hh1. subst pushover. now destruct (configured env).
  - destruct (Unawaited.guarded _ _ _ env w1) as [r w3]. cbn [fst] in *.
    destruct Hthrow as [-> | ->]; reflexivity.
Qed.

Lemma single_device_error_not_awaited_witness :
  let timeout := mkError "Navigation timeout of 30000 ms exceeded" "" in
  let env := mkEnv (fun call => match call with Goto _ => Some timeout | _ => None end)
               [] (fun _ _ => inl (mkError "connect ETIMEDOUT" ""))
               "2025-01-01T00:00:00.000Z" (fun _ => "") (Some "user") (Some "token") in
  scrape_outcome env = Throw timeout
  /\ fst (SingleDeviceRun.checkSteamDeckStock false env start) = Throw timeout
  /\ fst (SingleDeviceRun.checkSteamDeckStock true env start) = Throw timeout
  /\ fst (SingleDeviceRun.main true env start) = 1%Z.
Proof.
  intros timeout env.
  assert (H1 : scrape_outcome env = Throw timeout) by reflexivity.
  split; [exact H1|].
  destruct (single_device_error_not_awaited false env start timeout H1) as (Hf & _ & _).
  destruct (single_device_error_not_awaited true env start timeout H1) as (Ht & _ & Hm).
  split; [exact (Hf eq_refl)|]. split; [exact (Ht eq_refl) | exact Hm].
Defined.

(** *** The search-term generation *)

Lemma search_keys_NoDup : NoDup (map fst SearchTerms.DEVICES).
Proof. repeat constructor; cbn; intuition discriminate. Qed.

Lemma search_DEVICES_get_own (code : string) (d : SearchTerms.Device) :
  In (code, d) SearchTerms.DEVICES ->
  SearchTermsRun.DEVICES_get code = Some (SearchTermsRun.OwnDevice d).
Proof.
  intros Hin. unfold SearchTermsRun.DEVICES_get.
  now rewrite (assoc_In SearchTerms.DEVICES code d search_keys_NoDup Hin).
Qed.

(** The alert of this generation for a catalog device. *)
Local Abbreviation search_alert d :=
  (mkMessage ("🎉 " ++ SearchTerms.name d ++ " is now available for purchase!"
              ++ nl ++ nl ++ "Check: " ++ STORE_URL)
     ("🚨 " ++ toUpperCase (SearchTerms.name d) ++ " IN STOCK! 🚨")
     (SearchTerms.priority d) (SearchTerms.sound d)).

Local Abbreviation search_report error :=
  (mkMessage ("Steam Deck checker encountered an error: " ++ err_message error)
     SearchTermsRun.CHECKER_ERROR_TITLE 0 "pushover").

Lemma search_stockCheck_run (pushover : option Push) (d : SearchTerms.Device)
    (env : Env) (w : World) :
  exists w1,
    handed_over w1 = handed_over w
    /\ notify_calls w1 = notify_calls w
    /\ SearchTermsRun.stockCheck pushover (SearchTermsRun.OwnDevice d) env w
       = match scrape_outcome env with
         | Ok texts =>
             if SearchTerms.checkDeviceAvailability texts d then
               (sendNotification pushover (msg_message (search_alert d))
                  (Some (msg_title (search_alert d)))
                  (Some (SearchTerms.priority d)) (Some (SearchTerms.sound d)) ;;
                ret tt) env
                 (mkWorld
                    (console w1
                     ++ [(Stdout, [Txt ("🎉 " ++ SearchTerms.name d ++ " is in stock!")])])
                    (browser_calls w1) (handed_over w1) (notify_calls w1) (browser w1))
             else
               (Ok tt,
                mkWorld
                  (console w1
                   ++ [(Stdout, [Txt ("❌ No " ++ SearchTerms.name d ++ " in stock.")])])
                  (browser_calls w1) (handed_over w1) (notify_calls w1) (browser w1))
         | Throw e => (Throw e, w1)
         end.
Proof.
  unfold SearchTermsRun.stockCheck. cbv [bind console_log].
  match goal with
  | |- context [scrapeCartButtonTexts env ?w0] =>
      destruct (scrape_run env w0) as (Hr & Hh & Hn);
      destruct (scrapeCartButtonTexts env w0) as [r w1]
  end.
  cbn [fst snd handed_over notify_calls] in Hr, Hh, Hn. rewrite <- Hr.
  destruct r as [texts|e]; [|exists w1; auto].
  cbn [SearchTermsRun.checkMember SearchTermsRun.get_name SearchTermsRun.get_priority
       SearchTermsRun.get_sound str msg_message msg_title].
  exists (mkWorld
            (((console w1
               ++ [(Stdout, [Txt "Found cart buttons:"; Num (List.length texts)])])
              ++ [(Stdout, [CartButtonTexts texts])])
             ++ [(Stdout, [Txt (SearchTerms.name d ++ " Available: "
                                ++ bool_text (SearchTerms.checkDeviceAvailability texts d))])])
            (browser_calls w1) (handed_over w1) (notify_calls w1) (browser w1)).
  cbn [console browser_calls handed_over notify_calls browser].
  split; [exact Hh|]. split; [exact Hn|].
  cbv [ret]. destruct (SearchTerms.checkDeviceAvailability texts d); reflexivity.
Qed.

Lemma search_reportError_run (pushover : option Push) (error : JsError) (env : Env)
    (w : World) :
  (exists pending, fst (SearchTermsRun.reportError pushover error env w) = Ok pending)
  /\ notify_calls (snd (SearchTermsRun.reportError pushover error env w))
     = (notify_calls w ++ [search_report error])%list
  /\ handed_over (snd (SearchTermsRun.reportError pushover error env w))
     = (handed_over w
        ++ match pushover with Some _ => [search_report error] | None => [] end)%list.
Proof.
  unfold SearchTermsRun.reportError, Unawaited.start.
  destruct pushover; cbv [bind console_error console_log ret record_call]; cbn;
    rewrite ?app_nil_r; repeat split; eexists; reflexivity.
Qed.

(** X13: a run of the search-term script on a catalog device whose scrape
    succeeds.  Only the monitored device counts: when its search terms match
    no text, nothing is composed or handed over and the function returns
    normally, whatever else is in stock.  When they match, the alert carries
    the upper-cased display name and the device's priority and sound; with
    credentials it is handed over, and a failed delivery makes the function
    throw that failure after starting an error report of priority 0. *)
Theorem search_terms_run (code : string) (d : SearchTerms.Device) (replyInTime : bool)
    (env : Env) (w : World) (texts : list string) :
  In (code, d) SearchTerms.DEVICES ->
  scrape_outcome env = Ok texts ->
  rejects env Close = None ->
  let run := SearchTermsRun.checkSteamDeckStock code replyInTime env w in
  if SearchTerms.checkDeviceAvailability texts d then
    if configured env then
      match pushover_reply env (List.length (handed_over w)) (search_alert d) with
      | inr _ =>
          fst run = Ok tt
          /\ notify_calls (snd run) = (notify_calls w ++ [search_alert d])%list
          /\ handed_over (snd run) = (handed_over w ++ [search_alert d])%list
      | inl failure =>
          fst run = Throw failure
          /\ notify_calls (snd run)
             = (notify_calls w ++ [search_alert d; search_report failure])%list
          /\ handed_over (snd run)
             = (handed_over w ++ [search_alert d; search_report failure])%list
      end
    else
      fst run = Ok tt
      /\ notify_calls (snd run) = (notify_calls w ++ [search_alert d])%list
      /\ handed_over (snd run) = handed_over w
  else
    fst run = Ok tt
    /\ notify_calls (snd run) = notify_calls w
    /\ handed_over (snd run) = handed_over w.
Proof.
  intros Hin Hs Hclose. cbv zeta. unfold SearchTermsRun.checkSteamDeckStock.
  rewrite (search_DEVICES_get_own code d Hin). cbv [bind set_browser console_log].
  match goal with
  | |- context [Unawaited.initializePushover env ?w0] =>
      destruct (initializePushover_run env w0) as (w1 & Hh1 & Hn1 & _ & _ & ->)
  end.
  cbn [handed_over notify_calls] in Hh1, Hn1.
  set (pushover := if configured env then Some _ else None).
  destruct (guarded_run (SearchTermsRun.stockCheck pushover (SearchTermsRun.OwnDevice d))
              (SearchTermsRun.reportError pushover) replyInTime env w1)
    as (Hh & Hn & Hr & _).
  { intros e w0. apply (search_reportError_run pushover e env w0). }
  specialize (Hr Hclose). rewrite Hr, Hh, Hn. clear Hr Hh Hn.
  destruct (search_stockCheck_run pushover d env w1) as (w2 & Hh2 & Hn2 & ->).
  rewrite Hs.
  destruct (SearchTerms.checkDeviceAvailability texts d);
    cbn [fst snd handed_over notify_calls];
    [|rewrite Hh2, Hh1, Hn2, Hn1; auto].
  cbv [bind ret].
  match goal with
  | |- context [sendNotification ?p ?m ?t ?pr ?s env ?w0] =>
      pose proof (sendNotification_run p m t pr s env w0) as H;
      destruct (sendNotification p m t pr s env w0) as [r3 w3]
  end.
  cbv zeta in H.
  cbn [fst snd default handed_over notify_calls msg_message msg_title] in H.
  destruct H as (Hn3 & Hh3 & _ & _ & H). rewrite Hh2, Hh1 in H, Hh3. rewrite Hn2, Hn1 in Hn3.
  subst pushover. destruct (configured env).
  - destruct (pushover_reply env (Datatypes.length (handed_over w)) _) as [failure|result].
    + destruct H as [-> _]. cbn [fst snd]. split; [reflexivity|].
      destruct (search_reportError_run
                  (Some (mkPush (str (PUSHOVER_USER env)) (str (PUSHOVER_TOKEN env))))
                  failure env w3) as (_ & Hn4 & Hh4).
      rewrite Hn4, Hh4, Hn3, Hh3, <- !app_assoc. auto.
    + subst r3. cbn [fst snd]. auto.
  - destruct H as [-> _]. cbn [fst snd]. rewrite app_nil_r in Hh3. auto.
Qed.

Lemma search_terms_run_witness :
  let env := mkEnv (fun _ => None) ["Steam Deck 512 GB OLED refurbished Add to cart"]
               (fun _ _ => inr (mkResult 1 "accepted"))
               "2025-01-01T00:00:00.000Z" (fun _ => "") (Some "user") (Some "token") in
  let d := SearchTerms.mkDevice "Steam Deck LCD 256GB"
             ["Steam Deck 256 GB"; "Add to cart"] 0 "pushover" in
  (In ("lcd-256", d) SearchTerms.DEVICES
   /\ scrape_outcome env = Ok (cart_texts env)
   /\ rejects env Close = None)
  /\ fst (SearchTermsRun.checkSteamDeckStock "lcd-256" false env start) = Ok tt
  /\ notify_calls (snd (SearchTermsRun.checkSteamDeckStock "lcd-256" false env start)) = []
  /\ handed_over (snd (SearchTermsRun.checkSteamDeckStock "lcd-256" false env start)) = [].
Proof.
  intros env d.
  assert (H1 : In ("lcd-256", d) SearchTerms.DEVICES) by (cbn; auto).
  assert (H2 : scrape_outcome env = Ok (cart_texts env)) by reflexivity.
  assert (H3 : rejects env Close = None) by reflexivity.
  split; [auto|].
  exact (search_terms_run "lcd-256" d false env start (cart_texts env) H1 H2 H3).
Defined.

(** X14: a run of the search-term script on a catalog device whose scrape
    throws.  One error report is composed, of priority 0 and the default
    sound, and handed to the client when both credentials are set; it is not
    awaited.  Whatever the service answers, and whether or not the answer
    arrives before the browser is closed, the function throws the scraper's
    error and the script exits with code 1. *)
Theorem search_terms_error_not_awaited (code : string) (d : SearchTerms.Device)
    (replyInTime : bool) (env : Env) (w : World) (e : JsError) :
  In (code, d) SearchTerms.DEVICES ->
  scrape_outcome env = Throw e ->
  let run := SearchTermsRun.checkSteamDeckStock code replyInTime env w in
  (rejects env Close = None -> fst run = Throw e)
  /\ notify_calls (snd run) = (notify_calls w ++ [search_report e])%list
  /\ handed_over (snd run)
     = (handed_over w ++ if configured env then [search_report e] else [])%list
  /\ fst (SearchTermsRun.main code false replyInTime env w) = 1%Z.
Proof.
  intros Hin Hs. cbv zeta.
  unfold SearchTermsRun.main, SearchTermsRun.checkSteamDeckStock.
  rewrite (search_DEVICES_get_own code d Hin). cbv [bind set_browser console_log].
  match goal with
  | |- context [Unawaited.initializePushover env ?w0] =>
      destruct (initializePushover_run env w0) as (w1 & Hh1 & Hn1 & _ & _ & ->)
  end.
  cbn [handed_over notify_calls] in Hh1, Hn1.
  set (pushover := if configured env then Some _ else None).
  destruct (guarded_run (SearchTermsRun.stockCheck pushover (SearchTermsRun.OwnDevice d))
              (SearchTermsRun.reportError pushover) replyInTime env w1)
    as (Hh & Hn & Hr & e' & Hthrow).
  { intros e0 w0. apply (search_reportError_run pushover e0 env w0). }
  destruct (search_stockCheck_run pushover d env w1) as (w2 & Hh2 & Hn2 & Hrun).
  rewrite Hs in Hrun. rewrite Hrun in *. cbn [fst snd] in *.
  destruct (search_reportError_run pushover e env w2) as (_ & Hn3 & Hh3).
  split; [exact Hr|]. split; [|split].
  - now rewrite Hn, Hn3, Hn2, Hn1.
  - rewrite Hh, Hh3, Hh2, Hh1. subst pushover. now destruct (configured env).
  - destruct (Unawaited.guarded _ _ _ env w1) as [r w3]. cbn [fst] in *.
    destruct Hthrow as [-> | ->]; reflexivity.
Qed.

Lemma search_terms_error_not_awaited_witness :
  let timeout := mkError "Navigation timeout of 30000 ms exceeded" "" in
  let env := mkEnv (fun call => match call with Goto _ => Some timeout | _ => None end)
               [] (fun _ _ => inl (mkError "connect ETIMEDOUT" ""))
               "2025-01-01T00:00:00.000Z" (fun _ => "") (Some "user") (Some "token") in
  let d := SearchTerms.mkDevice "Steam Deck OLED 1TB"
             ["Steam Deck 1 TB OLED"; "Add to cart"] 1 "magic" in
  (In ("oled-1tb", d) SearchTerms.DEVICES /\ scrape_outcome env = Throw timeout)
  /\ fst (SearchTermsRun.checkSteamDeckStock "oled-1tb" true env start) = Throw timeout
  /\ fst (SearchTermsRun.main "oled-1tb" false true env start) = 1%Z.
Proof.
  intros timeout env d.
  assert (H1 : In ("oled-1tb", d) SearchTerms.DEVICES) by (cbn; auto).
  assert (H2 : scrape_outcome env = Throw timeout) by reflexivity.
  split; [auto|].
  destruct (search_terms_error_not_awaited "oled-1tb" d true env start timeout H1 H2)
    as (Hr & _ & _ & Hm).
  split; [exact (Hr eq_refl) | exact Hm].
Defined.

(** X15: the search-term check treats the texts and the terms as sets, and
    is monotone in both: with more texts and fewer search terms, in any order
    and with any repetitions, a device that was available stays available. *)
Theorem search_terms_monotone (texts texts' : list string) (d d' : SearchTerms.Device) :
  incl texts texts' ->
  incl (SearchTerms.searchTerms d') (SearchTerms.searchTerms d) ->
  SearchTerms.checkDeviceAvailability texts d = true ->
  SearchTerms.checkDeviceAvailability texts' d' = true.
Proof.
  unfold SearchTerms.checkDeviceAvailability. intros Ht Hterms.
  rewrite !existsb_exists. intros [text [Hin H]]. exists text. split; [now apply Ht|].
  rewrite forallb_forall in *. intros term Hterm. now apply H, Hterms.
Qed.

Lemma search_terms_monotone_witness :
  let d := SearchTerms.mkDevice "Steam Deck LCD 256GB"
             ["Steam Deck 256 GB"; "Add to cart"] 0 "pushover" in
  let d' := SearchTerms.mkDevice "Steam Deck LCD 256GB"
              ["Add to cart"; "Add to cart"] 0 "pushover" in
  let texts := ["Steam Deck 256 GB LCD Add to cart"] in
  let texts' := ["Steam Deck 1 TB OLED Out of stock"; "Steam Deck 256 GB LCD Add to cart"] in
  (incl texts texts'
   /\ incl (SearchTerms.searchTerms d') (SearchTerms.searchTerms d)
   /\ SearchTerms.checkDeviceAvailability texts d = true)
  /\ SearchTerms.checkDeviceAvailability texts' d' = true.
Proof.
  intros d d' texts texts'.
  assert (H1 : incl texts texts') by (intros t [<-|[]]; cbn; auto).
  assert (H2 : incl (SearchTerms.searchTerms d') (SearchTerms.searchTerms d))
    by (intros t [<-|[<-|[]]]; cbn; auto).
  assert (H3 : SearchTerms.checkDeviceAvailability texts d = true) by reflexivity.
  split; [auto|]. exact (search_terms_monotone texts texts' d d' H1 H2 H3).
Defined.

(** X16: the five-argument notifier, given the sound that the four-argument
    notifier derives from the priority ("magic" above 0, "pushover"
    otherwise), behaves as the four-argument one: same result or exception,
    same console lines, same message handed to the client.  The sounds of
    the catalog follow that rule, so the alerts of the newest generation sound
    as the first notifier would make them. *)
Theorem notifiers_agree (pushover : option Push) (message : string)
    (title : option string) (priority : option Z) (env : Env) (w : World) :
  let derived := if (0 <? default 0%Z priority)%Z then "magic" else "pushover" in
  let old := SingleDevice.sendNotification pushover message title priority env w in
  let new := sendNotification pushover message title priority (Some derived) env w in
  (fst new = fst old
   /\ console (snd new) = console (snd old)
   /\ handed_over (snd new) = handed_over (snd old)
   /\ browser_calls (snd new) = browser_calls (snd old))
  /\ forall code d,
       In (code, d) DEVICES ->
       Restock.sound d = if (0 <? Restock.priority d)%Z then "magic" else "pushover".
Proof.
  cbv zeta. split.
  - unfold sendNotification, SingleDevice.sendNotification.
    destruct pushover as [client|]; run; cbn [default]; [run_step|]; cbn;
      repeat split; reflexivity.
  - intros code d [H|[H|[H|[H|[]]]]]; injection H as _ <-; reflexivity.
Qed.

End Earlier.
